(** * Focus-session screen: countdown, grace period and teardown

    A shallow embedding of the session screen component
    ([SessionScreen], the countdown timer, the free-tier grace
    countdown and the stop/cleanup paths) and of the track lookup of
    [MusicList.tsx], followed by the properties established about them.

    Modelling conventions.
    - The component's [useState] cells and [useRef] cells are the fields
      of one record, [World], threaded explicitly through every handler.
    - The JavaScript runtime's table of armed intervals is the field
      [intervals]; [setInterval] and [clearInterval] act on it.  A handle
      that is overwritten in a ref without [clearInterval] therefore
      stays armed, exactly as in the runtime.
    - An [async] function runs synchronously up to its first [await]; the
      suspended remainder is stored in [pending] and resumed by the event
      [Settle], carrying whether the awaited promise fulfilled or
      rejected.
    - Calls that leave the component ([Alert.alert], the audio engine,
      [console.error], a rejected promise nobody awaits,
      [navigation.navigate]) are appended to logs.
    - [duration] is a JavaScript number; the screen is only ever entered
      with an integral number of minutes, so it is an integer here.
    - A state updater passed to a [useState] setter is run once, at the
      moment the setter is called. *)

From Stdlib Require Import ZArith List Bool String Lia Arith.
From Stdlib Require Import Ascii DecimalString.
From Stdlib Require DecimalZ.
Import ListNotations.
Open Scope Z_scope.

(** ** Track catalogue ([MusicList.tsx]) *)

Inductive Asset : Type :=
| focus1_mp3
| focus2_mp3.

Record MusicTrack : Type := {
  id : string;
  title : string;
  asset : Asset
}.

Definition musicTracks : list MusicTrack :=
  [ {| id := "focus1"%string; title := "Focus Track 1"%string;
       asset := focus1_mp3 |};
    {| id := "focus2"%string; title := "Focus Track 2"%string;
       asset := focus2_mp3 |} ].

Definition getTrackAssetById (trackId : string) : option Asset :=
  match find (fun t => String.eqb (id t) trackId) musicTracks with
  | Some track => Some (asset track)
  | None => None
  end.

(** ** Data of the session screen *)

Definition GRACE_PERIOD_SECONDS : Z := 10.

(** [AppStateStatus] of the host platform. *)
Inductive AppStateStatus : Type :=
| active
| background
| inactive
| unknown
| extension.

Definition TimerId : Type := nat.
Definition Sound : Type := nat.

(** The two closures handed to [setInterval]. *)
Inductive Callback : Type :=
| MainTick     (* the closure of [startTimer] *)
| GraceTick.   (* the closure of [handleAppBackground] *)

(** The dialogs raised through [Alert.alert], by title. *)
Inductive Alert : Type :=
| SessionCompleteAlert   (* 'Session Complete!' *)
| SessionFailedAlert     (* 'Session Failed' *)
| TrackNotFoundAlert     (* 'Error', 'Music track not found' *)
| LoadFailedAlert        (* 'Error', 'Failed to load music track' *)
| PremiumFeatureAlert    (* 'Premium Feature' *)
| SkipSessionAlert.      (* 'Skip Session' *)

Inductive Button : Type :=
| OkButton
| CancelButton
| SkipButton.

Inductive AudioCall : Type :=
| SetAudioMode
| CreateAsync (a : Asset)
| StopAsync (s : Sound)
| UnloadAsync (s : Sound).

Inductive Diagnostic : Type :=
| ErrorInitializingAudio   (* console.error in [initializeAudio] *)
| ErrorCleaningUpAudio     (* console.error in [cleanup] *)
| UnhandledRejection.      (* a rejected promise of [stopSession] *)

(** The remainder of an [async] function suspended at an [await]. *)
Inductive Cont : Type :=
| InitAwaitMode                       (* initializeAudio, at setAudioModeAsync *)
| InitAwaitCreate                     (* initializeAudio, at createAsync *)
| StopAwaitStop (success : bool)      (* stopSession, at stopAsync *)
| StopAwaitUnload (success : bool)    (* stopSession, at unloadAsync *)
| CleanupAwaitStop                    (* cleanup, at stopAsync *)
| CleanupAwaitUnload.                 (* cleanup, at unloadAsync *)

Inductive Settled : Type :=
| Fulfilled
| Rejected.

Record World : Type := mkWorld {
  (* useState *)
  timeRemaining : Z;
  graceTimeRemaining : option Z;
  (* useRef *)
  soundRef : option Sound;
  timerIntervalRef : option TimerId;
  graceTimerRef : option TimerId;
  backgroundTimeRef : option Z;
  (* runtime *)
  intervals : list (TimerId * Callback);
  nextTimerId : TimerId;
  pending : list Cont;
  nextSound : Sound;
  subscribed : bool;
  (* effects on the outside *)
  alerts : list Alert;
  audioCalls : list AudioCall;
  diagnostics : list Diagnostic;
  navigatedHome : bool
}.

Definition set_timeRemaining (v : Z) (w : World) : World :=
  mkWorld v (graceTimeRemaining w) (soundRef w) (timerIntervalRef w)
    (graceTimerRef w) (backgroundTimeRef w) (intervals w) (nextTimerId w)
    (pending w) (nextSound w) (subscribed w) (alerts w) (audioCalls w)
    (diagnostics w) (navigatedHome w).

Definition set_graceTimeRemaining (v : option Z) (w : World) : World :=
  mkWorld (timeRemaining w) v (soundRef w) (timerIntervalRef w)
    (graceTimerRef w) (backgroundTimeRef w) (intervals w) (nextTimerId w)
    (pending w) (nextSound w) (subscribed w) (alerts w) (audioCalls w)
    (diagnostics w) (navigatedHome w).

Definition set_soundRef (v : option Sound) (w : World) : World :=
  mkWorld (timeRemaining w) (graceTimeRemaining w) v (timerIntervalRef w)
    (graceTimerRef w) (backgroundTimeRef w) (intervals w) (nextTimerId w)
    (pending w) (nextSound w) (subscribed w) (alerts w) (audioCalls w)
    (diagnostics w) (navigatedHome w).

Definition set_timerIntervalRef (v : option TimerId) (w : World) : World :=
  mkWorld (timeRemaining w) (graceTimeRemaining w) (soundRef w) v
    (graceTimerRef w) (backgroundTimeRef w) (intervals w) (nextTimerId w)
    (pending w) (nextSound w) (subscribed w) (alerts w) (audioCalls w)
    (diagnostics w) (navigatedHome w).

Definition set_graceTimerRef (v : option TimerId) (w : World) : World :=
  mkWorld (timeRemaining w) (graceTimeRemaining w) (soundRef w)
    (timerIntervalRef w) v (backgroundTimeRef w) (intervals w) (nextTimerId w)
    (pending w) (nextSound w) (subscribed w) (alerts w) (audioCalls w)
    (diagnostics w) (navigatedHome w).

Definition set_backgroundTimeRef (v : option Z) (w : World) : World :=
  mkWorld (timeRemaining w) (graceTimeRemaining w) (soundRef w)
    (timerIntervalRef w) (graceTimerRef w) v (intervals w) (nextTimerId w)
    (pending w) (nextSound w) (subscribed w) (alerts w) (audioCalls w)
    (diagnostics w) (navigatedHome w).

Definition set_intervals (v : list (TimerId * Callback)) (w : World) : World :=
  mkWorld (timeRemaining w) (graceTimeRemaining w) (soundRef w)
    (timerIntervalRef w) (graceTimerRef w) (backgroundTimeRef w) v
    (nextTimerId w) (pending w) (nextSound w) (subscribed w) (alerts w)
    (audioCalls w) (diagnostics w) (navigatedHome w).

Definition set_nextTimerId (v : TimerId) (w : World) : World :=
  mkWorld (timeRemaining w) (graceTimeRemaining w) (soundRef w)
    (timerIntervalRef w) (graceTimerRef w) (backgroundTimeRef w) (intervals w)
    v (pending w) (nextSound w) (subscribed w) (alerts w) (audioCalls w)
    (diagnostics w) (navigatedHome w).

Definition set_pending (v : list Cont) (w : World) : World :=
  mkWorld (timeRemaining w) (graceTimeRemaining w) (soundRef w)
    (timerIntervalRef w) (graceTimerRef w) (backgroundTimeRef w) (intervals w)
    (nextTimerId w) v (nextSound w) (subscribed w) (alerts w) (audioCalls w)
    (diagnostics w) (navigatedHome w).

Definition set_nextSound (v : Sound) (w : World) : World :=
  mkWorld (timeRemaining w) (graceTimeRemaining w) (soundRef w)
    (timerIntervalRef w) (graceTimerRef w) (backgroundTimeRef w) (intervals w)
    (nextTimerId w) (pending w) v (subscribed w) (alerts w) (audioCalls w)
    (diagnostics w) (navigatedHome w).

Definition set_subscribed (v : bool) (w : World) : World :=
  mkWorld (timeRemaining w) (graceTimeRemaining w) (soundRef w)
    (timerIntervalRef w) (graceTimerRef w) (backgroundTimeRef w) (intervals w)
    (nextTimerId w) (pending w) (nextSound w) v (alerts w) (audioCalls w)
    (diagnostics w) (navigatedHome w).

Definition set_alerts (v : list Alert) (w : World) : World :=
  mkWorld (timeRemaining w) (graceTimeRemaining w) (soundRef w)
    (timerIntervalRef w) (graceTimerRef w) (backgroundTimeRef w) (intervals w)
    (nextTimerId w) (pending w) (nextSound w) (subscribed w) v (audioCalls w)
    (diagnostics w) (navigatedHome w).

Definition set_audioCalls (v : list AudioCall) (w : World) : World :=
  mkWorld (timeRemaining w) (graceTimeRemaining w) (soundRef w)
    (timerIntervalRef w) (graceTimerRef w) (backgroundTimeRef w) (intervals w)
    (nextTimerId w) (pending w) (nextSound w) (subscribed w) (alerts w) v
    (diagnostics w) (navigatedHome w).

Definition set_diagnostics (v : list Diagnostic) (w : World) : World :=
  mkWorld (timeRemaining w) (graceTimeRemaining w) (soundRef w)
    (timerIntervalRef w) (graceTimerRef w) (backgroundTimeRef w) (intervals w)
    (nextTimerId w) (pending w) (nextSound w) (subscribed w) (alerts w)
    (audioCalls w) v (navigatedHome w).

Definition set_navigatedHome (v : bool) (w : World) : World :=
  mkWorld (timeRemaining w) (graceTimeRemaining w) (soundRef w)
    (timerIntervalRef w) (graceTimerRef w) (backgroundTimeRef w) (intervals w)
    (nextTimerId w) (pending w) (nextSound w) (subscribed w) (alerts w)
    (audioCalls w) (diagnostics w) v.

(** ** The runtime: intervals, awaits and logs *)

Fixpoint lookupInterval (t : TimerId) (l : list (TimerId * Callback))
  : option Callback :=
  match l with
  | [] => None
  | (t', cb) :: l' => if Nat.eqb t' t then Some cb else lookupInterval t l'
  end.

Definition setInterval (cb : Callback) (w : World) : TimerId * World :=
  let t := nextTimerId w in
  (t, set_nextTimerId (S t) (set_intervals (intervals w ++ [(t, cb)]) w)).

Definition clearInterval (t : TimerId) (w : World) : World :=
  set_intervals (filter (fun p => negb (Nat.eqb (fst p) t)) (intervals w)) w.

Definition alert (a : Alert) (w : World) : World :=
  set_alerts (alerts w ++ [a]) w.

Definition callAudio (c : AudioCall) (w : World) : World :=
  set_audioCalls (audioCalls w ++ [c]) w.

Definition report (d : Diagnostic) (w : World) : World :=
  set_diagnostics (diagnostics w ++ [d]) w.

(** Suspend the running [async] function at an [await]. *)
Definition await (k : Cont) (w : World) : World :=
  set_pending (pending w ++ [k]) w.

Fixpoint removeAt {A : Type} (i : nat) (l : list A) : list A :=
  match l, i with
  | [], _ => []
  | _ :: l', O => l'
  | x :: l', S i' => x :: removeAt i' l'
  end.

(** ** The handlers of [SessionScreen] *)

Definition clearGraceTimer (w : World) : World :=
  match graceTimerRef w with
  | Some t => set_graceTimerRef None (clearInterval t w)
  | None => w
  end.

(** The dialog at the end of [stopSession]. *)
Definition showResult (success : bool) (w : World) : World :=
  alert (if success then SessionCompleteAlert else SessionFailedAlert) w.

(** [stopSession], up to its first [await] (or to its end when no sound
    is loaded). *)
Definition stopSession (success : bool) (w : World) : World :=
  let w1 :=
    match timerIntervalRef w with
    | Some t => set_timerIntervalRef None (clearInterval t w)
    | None => w
    end in
  let w2 := clearGraceTimer w1 in
  match soundRef w2 with
  | Some s => await (StopAwaitStop success) (callAudio (StopAsync s) w2)
  | None => showResult success w2
  end.

Definition handleSessionComplete (w : World) : World :=
  stopSession true w.

Definition handleGracePeriodExpired (w : World) : World :=
  stopSession false (clearGraceTimer w).

(** [initializeAudio], up to its first [await]. *)
Definition initializeAudio (w : World) : World :=
  await InitAwaitMode (callAudio SetAudioMode w).

Definition startTimer (w : World) : World :=
  let (t, w') := setInterval MainTick w in
  set_timerIntervalRef (Some t) w'.

(** The updater of the main interval. *)
Definition mainTick (w : World) : World :=
  let prev := timeRemaining w in
  if prev <=? 1
  then set_timeRemaining 0 (handleSessionComplete w)
  else set_timeRemaining (prev - 1) w.

(** The updater of the grace interval. *)
Definition graceTick (w : World) : World :=
  match graceTimeRemaining w with
  | None => w
  | Some prev =>
      if prev <=? 1
      then set_graceTimeRemaining (Some 0) (handleGracePeriodExpired w)
      else set_graceTimeRemaining (Some (prev - 1)) w
  end.

(** [cleanup], up to its first [await]; the main timer's handle is
    cleared in the runtime but stays in the ref. *)
Definition cleanup (w : World) : World :=
  let w1 :=
    match timerIntervalRef w with
    | Some t => clearInterval t w
    | None => w
    end in
  let w2 := clearGraceTimer w1 in
  match soundRef w2 with
  | Some s => await CleanupAwaitStop (callAudio (StopAsync s) w2)
  | None => w2
  end.

Section Session.

(** The route parameters and the premium flag read from the profile. *)
Variable duration : Z.
Variable trackId : string.
Variable isPremium : bool.

Definition handleAppBackground (now : Z) (w : World) : World :=
  if negb isPremium then
    let w1 := set_backgroundTimeRef (Some now) w in
    let w2 := set_graceTimeRemaining (Some GRACE_PERIOD_SECONDS) w1 in
    let (t, w3) := setInterval GraceTick w2 in
    set_graceTimerRef (Some t) w3
  else w.

Definition handleAppForeground (w : World) : World :=
  match negb isPremium, graceTimerRef w with
  | true, Some _ =>
      set_backgroundTimeRef None
        (set_graceTimeRemaining None (clearGraceTimer w))
  | _, _ => w
  end.

Definition handleAppStateChange (nextAppState : AppStateStatus) (now : Z)
    (w : World) : World :=
  match nextAppState with
  | background | inactive => handleAppBackground now w
  | active => handleAppForeground w
  | _ => w
  end.

Definition handleSkip (w : World) : World :=
  if negb isPremium then alert PremiumFeatureAlert w
  else alert SkipSessionAlert w.

(** The [onPress] of a dialog's button. *)
Definition onPress (a : Alert) (b : Button) (w : World) : World :=
  match a, b with
  | SessionCompleteAlert, OkButton => set_navigatedHome true w
  | SessionFailedAlert, OkButton => set_navigatedHome true w
  | SkipSessionAlert, SkipButton => stopSession true w
  | _, _ => w
  end.

(** Resume an [async] function after the promise it awaited settled. *)
Definition resume (k : Cont) (r : Settled) (w : World) : World :=
  match k, r with
  | InitAwaitMode, Fulfilled =>
      match getTrackAssetById trackId with
      | None => alert TrackNotFoundAlert w
      | Some trackAsset => await InitAwaitCreate (callAudio (CreateAsync trackAsset) w)
      end
  | InitAwaitCreate, Fulfilled =>
      set_soundRef (Some (nextSound w)) (set_nextSound (S (nextSound w)) w)
  | InitAwaitMode, Rejected
  | InitAwaitCreate, Rejected =>
      alert LoadFailedAlert (report ErrorInitializingAudio w)
  | StopAwaitStop success, Fulfilled =>
      match soundRef w with
      | Some s => await (StopAwaitUnload success) (callAudio (UnloadAsync s) w)
      | None => report UnhandledRejection w
      end
  | StopAwaitUnload success, Fulfilled =>
      showResult success (set_soundRef None w)
  | StopAwaitStop _, Rejected
  | StopAwaitUnload _, Rejected =>
      report UnhandledRejection w
  | CleanupAwaitStop, Fulfilled =>
      match soundRef w with
      | Some s => await CleanupAwaitUnload (callAudio (UnloadAsync s) w)
      | None => report ErrorCleaningUpAudio w
      end
  | CleanupAwaitUnload, Fulfilled => w
  | CleanupAwaitStop, Rejected
  | CleanupAwaitUnload, Rejected =>
      report ErrorCleaningUpAudio w
  end.

(** What can happen to a mounted screen. *)
Inductive Event : Type :=
| Tick (t : TimerId)                              (* an armed interval fires *)
| AppStateChange (s : AppStateStatus) (now : Z)   (* the platform's 'change' *)
| PressSkip                                       (* the skip button *)
| PressAlert (a : Alert) (b : Button)             (* a button of a raised dialog *)
| Settle (i : nat) (r : Settled)                  (* an awaited promise settles *)
| Unmount.                                        (* the screen is removed *)

Definition alert_eqb (a b : Alert) : bool :=
  match a, b with
  | SessionCompleteAlert, SessionCompleteAlert
  | SessionFailedAlert, SessionFailedAlert
  | TrackNotFoundAlert, TrackNotFoundAlert
  | LoadFailedAlert, LoadFailedAlert
  | PremiumFeatureAlert, PremiumFeatureAlert
  | SkipSessionAlert, SkipSessionAlert => true
  | _, _ => false
  end.

Definition step (e : Event) (w : World) : World :=
  match e with
  | Tick t =>
      match lookupInterval t (intervals w) with
      | Some MainTick => mainTick w
      | Some GraceTick => graceTick w
      | None => w
      end
  | AppStateChange s now =>
      if subscribed w then handleAppStateChange s now w else w
  | PressSkip => handleSkip w
  | PressAlert a b =>
      if existsb (alert_eqb a) (alerts w) then onPress a b w else w
  | Settle i r =>
      match nth_error (pending w) i with
      | Some k => resume k r (set_pending (removeAt i (pending w)) w)
      | None => w
      end
  | Unmount => set_subscribed false (cleanup w)
  end.

Definition run (es : list Event) (w : World) : World :=
  fold_left (fun w e => step e w) es w.

(** The screen right after its two mount effects ran. *)
Definition initial : World :=
  mkWorld (duration * 60) None None None None None [] 1%nat [] O false [] [] []
    false.

Definition mount : World :=
  set_subscribed true (startTimer (initializeAudio initial)).

End Session.

(** Terminal dialogs of a session. *)
Definition isTerminal (a : Alert) : bool :=
  match a with
  | SessionCompleteAlert | SessionFailedAlert => true
  | _ => false
  end.

Definition terminalAlerts (w : World) : list Alert :=
  filter isTerminal (alerts w).

(** [k] firings of interval [t], one after the other. *)
Definition ticks (t : TimerId) (k : nat) : list (Event) :=
  repeat (Tick t) k.

(** How often interval [x] fires in a trace. *)
Definition isTick (x : TimerId) (e : Event) : bool :=
  match e with
  | Tick y => Nat.eqb y x
  | _ => false
  end.

Definition firings (x : TimerId) (tr : list Event) : nat :=
  List.length (filter (isTick x) tr).

(** A trace in which nothing happens but firings of intervals, whichever
    they are. *)
Definition onlyFirings (tr : list Event) : Prop :=
  Forall (fun e => exists x : TimerId, e = Tick x) tr.

(** The runtime hands out handles it has not handed out before. *)
Definition freshHandles (w : World) : Prop :=
  Forall (fun p => (fst p < nextTimerId w)%nat) (intervals w).

(** ** The clock face ([formatTime]) *)

(** [Number.prototype.toString] on an integer. *)
Definition toString (n : Z) : string :=
  NilZero.string_of_int (Z.to_int n).

(** [String.prototype.padStart] with a one-character pad string. *)
Definition padStart (targetLength : nat) (padChar : ascii) (s : string)
  : string :=
  (string_of_list_ascii (repeat padChar (targetLength - String.length s))
   ++ s)%string.

(** [Math.floor(seconds / 60)] is the floored quotient; [%] is the
    remainder that takes the sign of the dividend. *)
Definition formatTime (seconds : Z) : string :=
  let mins := seconds / 60 in
  let secs := Z.rem seconds 60 in
  (padStart 2 "0" (toString mins) ++ ":" ++ padStart 2 "0" (toString secs))%string.

(** The condition under which the grace warning is rendered. *)
Definition graceWarningShown (w : World) : bool :=
  match graceTimeRemaining w with
  | Some g => 0 <? g
  | None => false
  end.

(** Reading a clock face back: the text before and after the first
    colon, each read as a decimal numeral. *)
Fixpoint splitColon (s : string) : option (string * string) :=
  match s with
  | EmptyString => None
  | String c s' =>
      if Ascii.eqb c ":" then Some (EmptyString, s')
      else match splitColon s' with
           | Some (a, b) => Some (String c a, b)
           | None => None
           end
  end.

Definition readNumeral (s : string) : option Z :=
  match NilEmpty.uint_of_string s with
  | Some d => Some (Z.of_uint d)
  | None => None
  end.

Definition parseTime (s : string) : option Z :=
  match splitColon s with
  | Some (a, b) =>
      match readNumeral a, readNumeral b with
      | Some m, Some r => Some (m * 60 + r)
      | _, _ => None
      end
  | None => None
  end.

Definition digit (d : Z) : ascii := ascii_of_nat (48 + Z.to_nat d).

(** The clock face written out digit by digit, for up to 999 minutes:
    the minutes with two digits, or three from 100 on, then the seconds
    of the minute with two digits. *)
Definition minutesFace (m : Z) : string :=
  String.append
    (if m <? 100 then EmptyString else String (digit (m / 100)) EmptyString)
    (String (digit ((m / 10) mod 10)) (String (digit (m mod 10)) EmptyString)).

Definition secondsFace (r : Z) : string :=
  String (digit (r / 10)) (String (digit (r mod 10)) EmptyString).

Definition clockFace (s : Z) : string :=
  String.append (minutesFace (s / 60))
    (String ":" (secondsFace (s mod 60))).

(** Does padding the decimal numeral print [face] on the [n] numbers
    from [from] on? *)
Fixpoint faceAgrees (face : Z -> string) (n : nat) (from : Z) : bool :=
  match n with
  | O => true
  | S n' =>
      String.eqb (padStart 2 "0" (toString from)) (face from)
      && faceAgrees face n' (from + 1)
  end.

(** One absence of the simple kind: a single app-state change that
    takes the app out of the foreground ([leftAs], 'background' or
    'inactive'), the firings that follow, and the return to 'active'.
    Two such changes in a row without a return in between are not of
    this kind. *)
Record Absence : Type := mkAbsence {
  leftAs : AppStateStatus;
  leftAt : Z;
  firedAway : list Event
}.

Definition absence (a : Absence) : list Event :=
  AppStateChange (leftAs a) (leftAt a)
  :: firedAway a ++ [AppStateChange active (leftAt a)].

Definition absences (l : list Absence) : list Event :=
  List.concat (map absence l).

(** Every absence is announced by 'background' or 'inactive', holds
    nothing but firings, and sees fewer than ten firings of the grace
    interval armed for it; that interval gets handle [g] in the first
    absence, [S g] in the next, and so on. *)
Fixpoint shortAbsences (g : TimerId) (l : list Absence) : Prop :=
  match l with
  | [] => True
  | a :: l' =>
      (leftAs a = background \/ leftAs a = inactive)
      /\ onlyFirings (firedAway a)
      /\ Z.of_nat (firings g (firedAway a)) < GRACE_PERIOD_SECONDS
      /\ shortAbsences (S g) l'
  end.

Fixpoint mainFirings (t : TimerId) (l : list Absence) : nat :=
  match l with
  | [] => O
  | a :: l' => (firings t (firedAway a) + mainFirings t l')%nat
  end.

(** The grace counter, when set, lies between 0 and the grace period. *)
Definition graceInRange (w : World) : Prop :=
  match graceTimeRemaining w with
  | Some g => 0 <= g <= GRACE_PERIOD_SECONDS
  | None => True
  end.

(** Every armed interval that runs the countdown is the one whose handle
    [timerIntervalRef] holds. *)
Definition mainOwned (w : World) : Prop :=
  forall t : TimerId,
    lookupInterval t (intervals w) = Some MainTick ->
    timerIntervalRef w = Some t.

(** No grace interval is armed, whether its handle is still held or
    not. *)
Definition noGraceArmed (w : World) : Prop :=
  forall x : TimerId, lookupInterval x (intervals w) <> Some GraceTick.

(** A running free-tier session, in terms of the component's state: the
    app-state listener is subscribed, the countdown interval [t] is armed
    and it is the one held in [timerIntervalRef], and no grace interval
    is armed or held. *)
Definition Running (t : TimerId) (w : World) : Prop :=
  subscribed w = true
  /\ timerIntervalRef w = Some t
  /\ lookupInterval t (intervals w) = Some MainTick
  /\ mainOwned w
  /\ noGraceArmed w
  /\ graceTimerRef w = None
  /\ freshHandles w.

(** Nothing is armed, pending or on screen that belongs to a failing
    session. *)
Definition neverFailing (w : World) : Prop :=
  (forall t : TimerId, lookupInterval t (intervals w) <> Some GraceTick)
  /\ ~ In (StopAwaitStop false) (pending w)
  /\ ~ In (StopAwaitUnload false) (pending w)
  /\ ~ In SessionFailedAlert (alerts w)
  /\ graceTimeRemaining w = None.

(** The events by which the app leaves the foreground. *)
Definition leavesApp (e : Event) : bool :=
  match e with
  | AppStateChange background _ | AppStateChange inactive _ => true
  | _ => false
  end.


(** ** The home screen ([HomeScreen.tsx]) *)

Definition DURATION_OPTIONS : list Z := [30; 60; 90; 120].

Record Home : Type := mkHome {
  selectedDuration : Z;
  selectedTrackId : option string
}.

Definition initialHome : Home :=
  mkHome 60 (Some "focus1"%string).

(** The buttons the screen renders: one per entry of [DURATION_OPTIONS]
    and, in [MusicList], one per entry of [musicTracks]. *)
Inductive HomeEvent : Type :=
| PressDuration (i : nat)
| PressTrack (i : nat).

Definition stepHome (e : HomeEvent) (h : Home) : Home :=
  match e with
  | PressDuration i =>
      match nth_error DURATION_OPTIONS i with
      | Some d => mkHome d (selectedTrackId h)
      | None => h
      end
  | PressTrack i =>
      match nth_error musicTracks i with
      | Some track => mkHome (selectedDuration h) (Some (id track))
      | None => h
      end
  end.

Definition runHome (es : list HomeEvent) (h : Home) : Home :=
  fold_left (fun h e => stepHome e h) es h.

Inductive StartOutcome : Type :=
| SelectTrackAlert                                   (* 'Please select a music track' *)
| NavigateSession (duration : Z) (trackId : string). (* navigate('Session', ...) *)

(** [!selectedTrackId] holds of [null] and of the empty string. *)
Definition handleStart (h : Home) : StartOutcome :=
  match selectedTrackId h with
  | None => SelectTrackAlert
  | Some t =>
      if String.eqb t EmptyString then SelectTrackAlert
      else NavigateSession (selectedDuration h) t
  end.

(** ** The profile ([AuthContext.tsx], the premium stub)

    The 'users' collection of the store maps a user id to a document.
    The only field this code reads or writes is [isPremium], so a
    document is represented by that field: absent, or a boolean.  A
    write whose promise rejects leaves the collection as it was. *)

Definition UserData : Type := option bool.

Definition Users : Type := list (string * UserData).

Fixpoint getDoc (userId : string) (db : Users) : option UserData :=
  match db with
  | [] => None
  | (u, d) :: db' => if String.eqb u userId then Some d else getDoc userId db'
  end.

Definition setDoc (userId : string) (d : UserData) (db : Users) : Users :=
  (userId, d) :: db.

Record Auth : Type := mkAuth {
  user : option string;          (* the signed-in user's uid *)
  userData : option UserData;
  loading : bool;
  users : Users;
  authErrors : nat               (* console.error calls *)
}.

Definition setUserData (v : option UserData) (a : Auth) : Auth :=
  mkAuth (user a) v (loading a) (users a) (authErrors a).

Definition logAuthError (a : Auth) : Auth :=
  mkAuth (user a) (userData a) (loading a) (users a) (S (authErrors a)).

(** [fetchUserData]; [rGet] and [rSet] say how the promises of [getDoc]
    and of [setDoc] settle. *)
Definition fetchUserData (userId : string) (rGet rSet : Settled) (a : Auth)
  : Auth :=
  match rGet with
  | Rejected => setUserData (Some (Some false)) (logAuthError a)
  | Fulfilled =>
      match getDoc userId (users a) with
      | Some d => setUserData (Some d) a
      | None =>
          match rSet with
          | Fulfilled =>
              setUserData (Some (Some false))
                (mkAuth (user a) (userData a) (loading a)
                   (setDoc userId (Some false) (users a)) (authErrors a))
          | Rejected => setUserData (Some (Some false)) (logAuthError a)
          end
      end
  end.

(** The listener handed to [onAuthStateChanged]. *)
Definition authStateChanged (u : option string) (rGet rSet : Settled)
    (a : Auth) : Auth :=
  let a1 := mkAuth u (userData a) (loading a) (users a) (authErrors a) in
  let a2 :=
    match u with
    | Some uid => fetchUserData uid rGet rSet a1
    | None => setUserData None a1
    end in
  mkAuth (user a2) (userData a2) false (users a2) (authErrors a2).

(** [markUserPremium]: a merging write of [isPremium: true]; a rejected
    write is logged and thrown on ([inr]). *)
Definition markUserPremium (userId : string) (rSet : Settled) (db : Users)
  : Users + Users :=
  match rSet with
  | Fulfilled => inl (setDoc userId (Some true) db)
  | Rejected => inr db
  end.

(** Any number of [fetchUserData] runs, each for some user and with its
    own outcomes of the two promises. *)
Definition fetches (calls : list (string * Settled * Settled)) (a : Auth)
  : Auth :=
  fold_left
    (fun a c => fetchUserData (fst (fst c)) (snd (fst c)) (snd c) a)
    calls a.

(** [userData?.isPremium ?? false], as the session screen reads it. *)
Definition isPremiumOf (ud : option UserData) : bool :=
  match ud with
  | Some (Some b) => b
  | _ => false
  end.

(** ** Basic facts about the runtime *)

Lemma run_app trackId isPremium (es1 es2 : list Event) (w : World) :
  run trackId isPremium (es1 ++ es2) w
  = run trackId isPremium es2 (run trackId isPremium es1 w).
Proof. unfold run. apply fold_left_app. Qed.

Lemma run_snoc trackId isPremium (es : list Event) (e : Event) (w : World) :
  run trackId isPremium (es ++ [e]) w
  = step trackId isPremium e (run trackId isPremium es w).
Proof. rewrite run_app. reflexivity. Qed.

Lemma run_cons trackId isPremium (e : Event) (es : list Event) (w : World) :
  run trackId isPremium (e :: es) w
  = run trackId isPremium es (step trackId isPremium e w).
Proof. reflexivity. Qed.

Lemma ticks_S (t : TimerId) (k : nat) :
  ticks t (S k) = ticks t k ++ [Tick t].
Proof. unfold ticks. rewrite <- repeat_cons. reflexivity. Qed.

Lemma lookupInterval_filter (t t' : TimerId) (l : list (TimerId * Callback)) :
  lookupInterval t (filter (fun p => negb (Nat.eqb (fst p) t')) l)
  = if Nat.eqb t t' then None else lookupInterval t l.
Proof.
  induction l as [|[u cb] l IH]; simpl.
  - destruct (Nat.eqb t t'); reflexivity.
  - destruct (Nat.eqb u t') eqn:Hu; simpl.
    + rewrite IH. destruct (Nat.eqb t t') eqn:Ht; [reflexivity|].
      apply Nat.eqb_eq in Hu. subst u.
      rewrite Nat.eqb_sym, Ht. reflexivity.
    + rewrite IH. destruct (Nat.eqb u t) eqn:Hut.
      * apply Nat.eqb_eq in Hut. subst u. rewrite Hu. reflexivity.
      * reflexivity.
Qed.

Lemma lookupInterval_app (t : TimerId) (l1 l2 : list (TimerId * Callback)) :
  lookupInterval t (l1 ++ l2)
  = match lookupInterval t l1 with
    | Some cb => Some cb
    | None => lookupInterval t l2
    end.
Proof.
  induction l1 as [|[u cb] l1 IH]; simpl; [reflexivity|].
  destruct (Nat.eqb u t); [reflexivity|apply IH].
Qed.

Lemma lookupInterval_clearInterval (t t' : TimerId) (w : World) :
  lookupInterval t (intervals (clearInterval t' w))
  = if Nat.eqb t t' then None else lookupInterval t (intervals w).
Proof. unfold clearInterval. simpl. apply lookupInterval_filter. Qed.

Lemma lookupInterval_clearGraceTimer (t : TimerId) (w : World) :
  lookupInterval t (intervals w) = None ->
  lookupInterval t (intervals (clearGraceTimer w)) = None.
Proof.
  intros H. unfold clearGraceTimer.
  destruct (graceTimerRef w) as [g|]; [|exact H].
  simpl. rewrite lookupInterval_filter. rewrite H.
  destruct (Nat.eqb t g); reflexivity.
Qed.

(** ** Facts about [stopSession] *)

Lemma intervals_stopSession (success : bool) (w : World) :
  intervals (stopSession success w)
  = intervals (clearGraceTimer
      match timerIntervalRef w with
      | Some t => set_timerIntervalRef None (clearInterval t w)
      | None => w
      end).
Proof.
  unfold stopSession.
  match goal with |- context [soundRef ?x] => destruct (soundRef x) end;
    reflexivity.
Qed.

Lemma stopSession_disarms_main (success : bool) (w : World) (t : TimerId) :
  timerIntervalRef w = Some t ->
  lookupInterval t (intervals (stopSession success w)) = None.
Proof.
  intros H. rewrite intervals_stopSession, H.
  apply lookupInterval_clearGraceTimer.
  simpl. rewrite lookupInterval_filter, Nat.eqb_refl. reflexivity.
Qed.

Lemma stopSession_disarms_grace (success : bool) (w : World) (g : TimerId) :
  graceTimerRef w = Some g ->
  lookupInterval g (intervals (stopSession success w)) = None.
Proof.
  intros H. rewrite intervals_stopSession.
  unfold clearGraceTimer.
  destruct (timerIntervalRef w) as [t|]; simpl; rewrite H; simpl;
    repeat rewrite lookupInterval_filter; rewrite Nat.eqb_refl; reflexivity.
Qed.

Lemma stopSession_refs (success : bool) (w : World) :
  timerIntervalRef (stopSession success w) = None
  /\ graceTimerRef (stopSession success w) = None.
Proof.
  unfold stopSession, clearGraceTimer.
  destruct w as [tr gr sr ti gt bt iv nt pe ns su al ac di nh]; simpl.
  destruct ti, gt, sr; simpl; split; reflexivity.
Qed.

Lemma stopSession_set_timeRemaining (success : bool) (v : Z) (w : World) :
  stopSession success (set_timeRemaining v w)
  = set_timeRemaining v (stopSession success w).
Proof.
  unfold stopSession, clearGraceTimer.
  destruct w as [tr gr sr ti gt bt iv nt pe ns su al ac di nh]; simpl.
  destruct ti, gt, sr; reflexivity.
Qed.

Lemma stopSession_without_sound (success : bool) (w : World) :
  soundRef w = None ->
  alerts (stopSession success w)
  = alerts w ++ [if success then SessionCompleteAlert else SessionFailedAlert]
  /\ pending (stopSession success w) = pending w
  /\ audioCalls (stopSession success w) = audioCalls w
  /\ soundRef (stopSession success w) = None.
Proof.
  unfold stopSession, clearGraceTimer.
  destruct w as [tr gr sr ti gt bt iv nt pe ns su al ac di nh]; simpl.
  intros ->. destruct ti, gt; simpl; repeat split; reflexivity.
Qed.

Lemma stopSession_with_sound (success : bool) (w : World) (s : Sound) :
  soundRef w = Some s ->
  alerts (stopSession success w) = alerts w
  /\ pending (stopSession success w) = pending w ++ [StopAwaitStop success]
  /\ audioCalls (stopSession success w) = audioCalls w ++ [StopAsync s]
  /\ soundRef (stopSession success w) = Some s.
Proof.
  unfold stopSession, clearGraceTimer.
  destruct w as [tr gr sr ti gt bt iv nt pe ns su al ac di nh]; simpl.
  intros ->. destruct ti, gt; simpl; repeat split; reflexivity.
Qed.

Lemma nth_error_snoc {A : Type} (l : list A) (x : A) :
  nth_error (l ++ [x]) (List.length l) = Some x.
Proof. induction l; simpl; auto. Qed.

Lemma removeAt_snoc {A : Type} (l : list A) (x : A) :
  removeAt (List.length l) (l ++ [x]) = l.
Proof. induction l; simpl; [reflexivity|]. rewrite IHl. reflexivity. Qed.

Lemma nth_error_length {A : Type} (l : list A) :
  nth_error l (List.length l) = None.
Proof. induction l; simpl; auto. Qed.

Lemma step_Settle_last trackId isPremium (w : World) (l : list Cont)
    (k : Cont) (r : Settled) :
  pending w = l ++ [k] ->
  step trackId isPremium (Settle (List.length l) r) w
  = resume trackId k r (set_pending l w).
Proof.
  intros H. unfold step. rewrite H, nth_error_snoc, removeAt_snoc.
  reflexivity.
Qed.

Lemma step_Settle_none trackId isPremium (w : World) (r : Settled) :
  step trackId isPremium (Settle (List.length (pending w)) r) w = w.
Proof. unfold step. rewrite nth_error_length. reflexivity. Qed.

(** A run of [stopSession] whose two awaited audio promises fulfil
    ends with the result dialog and a released, cleared sound handle. *)
Lemma stopSession_settled trackId isPremium (success : bool) (w : World) :
  let p := List.length (pending w) in
  let w' := run trackId isPremium [Settle p Fulfilled; Settle p Fulfilled]
              (stopSession success w) in
  alerts w'
  = alerts w ++ [if success then SessionCompleteAlert else SessionFailedAlert]
  /\ soundRef w' = None
  /\ timerIntervalRef w' = None
  /\ graceTimerRef w' = None
  /\ pending w' = pending w.
Proof.
  intros p w'. subst p w'.
  destruct (stopSession_refs success w) as [Hti Hgt].
  rewrite !run_cons. unfold run, fold_left.
  destruct (soundRef w) as [s|] eqn:Hs.
  - destruct (stopSession_with_sound success w s Hs) as (Ha & Hp & _ & Hsr).
    set (w1 := stopSession success w) in *. clearbody w1.
    assert (E1 : step trackId isPremium
                   (Settle (List.length (pending w)) Fulfilled) w1
                 = await (StopAwaitUnload success)
                     (callAudio (UnloadAsync s)
                        (set_pending (pending w) w1))).
    { rewrite (step_Settle_last _ _ _ _ _ _ Hp). cbn. rewrite Hsr.
      reflexivity. }
    rewrite E1.
    rewrite (step_Settle_last _ _ _ (pending w) (StopAwaitUnload success));
      [|reflexivity].
    cbn. rewrite Ha, Hti, Hgt. repeat split; reflexivity.
  - destruct (stopSession_without_sound success w Hs) as (Ha & Hp & _ & Hsr).
    assert (E : step trackId isPremium
                  (Settle (List.length (pending w)) Fulfilled)
                  (stopSession success w) = stopSession success w).
    { rewrite <- Hp. apply step_Settle_none. }
    rewrite !E.
    repeat split; assumption.
Qed.

(** ** Facts about the two interval callbacks *)

Lemma set_timeRemaining_id (w : World) :
  set_timeRemaining (timeRemaining w) w = w.
Proof. destruct w; reflexivity. Qed.

Lemma set_timeRemaining_twice (a b : Z) (w : World) :
  set_timeRemaining a (set_timeRemaining b w) = set_timeRemaining a w.
Proof. reflexivity. Qed.

Lemma mainTick_running (w : World) :
  1 < timeRemaining w ->
  mainTick w = set_timeRemaining (timeRemaining w - 1) w.
Proof.
  intros H. unfold mainTick.
  destruct (timeRemaining w <=? 1) eqn:E; [|reflexivity].
  apply Z.leb_le in E. lia.
Qed.

Lemma mainTick_last (w : World) :
  timeRemaining w <= 1 ->
  mainTick w = set_timeRemaining 0 (stopSession true w).
Proof.
  intros H. unfold mainTick, handleSessionComplete.
  destruct (timeRemaining w <=? 1) eqn:E; [reflexivity|].
  apply Z.leb_gt in E. lia.
Qed.

Lemma step_Tick_main trackId isPremium (t : TimerId) (w : World) :
  lookupInterval t (intervals w) = Some MainTick ->
  step trackId isPremium (Tick t) w = mainTick w.
Proof. intros H. unfold step. rewrite H. reflexivity. Qed.

Lemma step_Tick_grace trackId isPremium (t : TimerId) (w : World) :
  lookupInterval t (intervals w) = Some GraceTick ->
  step trackId isPremium (Tick t) w = graceTick w.
Proof. intros H. unfold step. rewrite H. reflexivity. Qed.

Lemma step_Tick_disarmed trackId isPremium (t : TimerId) (w : World) :
  lookupInterval t (intervals w) = None ->
  step trackId isPremium (Tick t) w = w.
Proof. intros H. unfold step. rewrite H. reflexivity. Qed.

Lemma run_ticks_disarmed trackId isPremium (t : TimerId) (k : nat) (w : World) :
  lookupInterval t (intervals w) = None ->
  run trackId isPremium (ticks t k) w = w.
Proof.
  intros H. induction k as [|k IH]; [reflexivity|].
  rewrite ticks_S, run_snoc, IH. apply step_Tick_disarmed, H.
Qed.

(** While more than [k] seconds remain, [k] firings of the main interval
    change nothing but [timeRemaining]. *)
Lemma run_main_ticks trackId isPremium (t : TimerId) (w : World) (k : nat) :
  lookupInterval t (intervals w) = Some MainTick ->
  Z.of_nat k < timeRemaining w ->
  run trackId isPremium (ticks t k) w
  = set_timeRemaining (timeRemaining w - Z.of_nat k) w.
Proof.
  intros Hl. induction k as [|k IH]; intros Hk.
  - simpl. rewrite Z.sub_0_r, set_timeRemaining_id. reflexivity.
  - rewrite ticks_S, run_snoc, IH by lia.
    rewrite step_Tick_main by exact Hl.
    rewrite mainTick_running by (simpl; lia).
    simpl timeRemaining. rewrite set_timeRemaining_twice.
    f_equal. lia.
Qed.

(** The firing that finds one second (or less) left stops the session. *)
Lemma run_main_ticks_complete trackId isPremium (t : TimerId) (w : World) :
  lookupInterval t (intervals w) = Some MainTick ->
  0 < timeRemaining w ->
  run trackId isPremium (ticks t (Z.to_nat (timeRemaining w))) w
  = set_timeRemaining 0 (stopSession true w).
Proof.
  intros Hl Hn.
  replace (Z.to_nat (timeRemaining w))
    with (S (Z.to_nat (timeRemaining w - 1))) by lia.
  rewrite ticks_S, run_snoc, run_main_ticks by (try exact Hl; lia).
  rewrite step_Tick_main by exact Hl.
  rewrite mainTick_last by (simpl; lia).
  rewrite stopSession_set_timeRemaining. reflexivity.
Qed.

(** Resuming a suspended [async] function neither reads nor writes the
    two [useState] cells. *)
Lemma step_Settle_set_timeRemaining trackId isPremium (i : nat) (r : Settled)
    (v : Z) (w : World) :
  step trackId isPremium (Settle i r) (set_timeRemaining v w)
  = set_timeRemaining v (step trackId isPremium (Settle i r) w).
Proof.
  unfold step. cbn [pending set_timeRemaining].
  destruct (nth_error (pending w) i) as [k|]; [|reflexivity].
  destruct k, r; cbn; try reflexivity;
    try (destruct (getTrackAssetById trackId); reflexivity);
    destruct (soundRef w); reflexivity.
Qed.

Lemma step_Settle_set_graceTimeRemaining trackId isPremium (i : nat)
    (r : Settled) (v : option Z) (w : World) :
  step trackId isPremium (Settle i r) (set_graceTimeRemaining v w)
  = set_graceTimeRemaining v (step trackId isPremium (Settle i r) w).
Proof.
  unfold step. cbn [pending set_graceTimeRemaining].
  destruct (nth_error (pending w) i) as [k|]; [|reflexivity].
  destruct k, r; cbn; try reflexivity;
    try (destruct (getTrackAssetById trackId); reflexivity);
    destruct (soundRef w); reflexivity.
Qed.

Lemma graceTimerRef_step_Settle trackId isPremium (i : nat) (r : Settled)
    (w : World) :
  graceTimerRef (step trackId isPremium (Settle i r) w) = graceTimerRef w.
Proof.
  unfold step.
  destruct (nth_error (pending w) i) as [k|]; [|reflexivity].
  destruct k, r; cbn; try reflexivity;
    try (destruct (getTrackAssetById trackId); reflexivity);
    destruct (soundRef w); reflexivity.
Qed.

(** ** The main countdown *)

(** C4.  Let the main interval of a session with [n > 0] seconds left fire
    without interruption.  Each of the first [n - 1] firings lowers
    [timeRemaining] by exactly one and changes nothing else; the value is
    never negative; the [n]-th firing, and no earlier one, runs
    [stopSession true] and leaves [timeRemaining] at 0; that firing
    disarms the interval, so completion is reached exactly once and every
    later firing finds nothing to do; and once the audio teardown it
    started has settled the only dialog added is the one announcing the
    completed session. *)
Theorem main_timer_counts_down_to_completion :
  forall (trackId : string) (isPremium : bool) (w : World) (t : TimerId)
         (n : Z),
    0 < n ->
    timeRemaining w = n ->
    timerIntervalRef w = Some t ->
    lookupInterval t (intervals w) = Some MainTick ->
    let after k := run trackId isPremium (ticks t k) w in
    let p := List.length (pending w) in
    (forall k : nat, Z.of_nat k < n ->
       after k = set_timeRemaining (n - Z.of_nat k) w)
    /\ (forall k : nat, 0 <= timeRemaining (after k))
    /\ after (Z.to_nat n) = set_timeRemaining 0 (stopSession true w)
    /\ lookupInterval t (intervals (after (Z.to_nat n))) = None
    /\ (forall k : nat, (Z.to_nat n <= k)%nat -> after k = after (Z.to_nat n))
    /\ alerts (run trackId isPremium
                 [Settle p Fulfilled; Settle p Fulfilled] (after (Z.to_nat n)))
       = alerts w ++ [SessionCompleteAlert].
Proof.
  intros trackId isPremium w t n Hn Htr Hti Hl after p.
  assert (Hbefore : forall k : nat, Z.of_nat k < n ->
            after k = set_timeRemaining (n - Z.of_nat k) w).
  { intros k Hk. unfold after. rewrite run_main_ticks by (try exact Hl; lia).
    rewrite Htr. reflexivity. }
  assert (Hat : after (Z.to_nat n) = set_timeRemaining 0 (stopSession true w)).
  { unfold after. rewrite <- Htr. apply run_main_ticks_complete; [exact Hl|lia]. }
  assert (Hoff : lookupInterval t (intervals (after (Z.to_nat n))) = None).
  { rewrite Hat. cbn [intervals set_timeRemaining].
    apply stopSession_disarms_main, Hti. }
  assert (Hlater : forall k : nat, (Z.to_nat n <= k)%nat ->
            after k = after (Z.to_nat n)).
  { intros k Hk. unfold after.
    replace k with (Z.to_nat n + (k - Z.to_nat n))%nat at 1 by lia.
    unfold ticks at 1. rewrite repeat_app, run_app.
    apply run_ticks_disarmed. exact Hoff. }
  repeat split; try assumption.
  - intros k. destruct (Z_lt_le_dec (Z.of_nat k) n) as [Hk|Hk].
    + rewrite Hbefore by exact Hk. simpl. lia.
    + rewrite Hlater by lia. rewrite Hat. simpl. lia.
  - rewrite Hat. rewrite !run_cons. unfold run, fold_left.
    rewrite !step_Settle_set_timeRemaining. cbn [alerts set_timeRemaining].
    exact (proj1 (stopSession_settled trackId isPremium true w)).
Qed.

(** The theorem at a one-minute session right after mounting. *)
Lemma main_timer_counts_down_to_completion_witness :
  let w := mount 1 in
  (0 < 60 /\ timeRemaining w = 60 /\ timerIntervalRef w = Some 1%nat
   /\ lookupInterval 1%nat (intervals w) = Some MainTick)
  /\ run "focus1" false (ticks 1%nat 60) w
     = set_timeRemaining 0 (stopSession true w).
Proof.
  split.
  - repeat split; reflexivity.
  - exact (proj1 (proj2 (proj2
      (main_timer_counts_down_to_completion "focus1" false (mount 1) 1%nat 60
         eq_refl eq_refl eq_refl eq_refl)))).
Defined.

(** ** App-state changes *)

(** C10.  An app-state value other than 'background', 'inactive' and
    'active' (that is, 'unknown' or 'extension') reaches neither the
    background handler nor the foreground handler: the handler returns
    the state it was given, so no grace timer is armed or disarmed and no
    session state changes. *)
Theorem other_app_states_are_ignored :
  forall (trackId : string) (isPremium : bool) (s : AppStateStatus) (now : Z)
         (w : World),
    s <> background -> s <> inactive -> s <> active ->
    handleAppStateChange isPremium s now w = w
    /\ step trackId isPremium (AppStateChange s now) w = w.
Proof.
  intros trackId isPremium s now w Hb Hi Ha.
  assert (H : handleAppStateChange isPremium s now w = w).
  { destruct s; try reflexivity; congruence. }
  split; [exact H|].
  unfold step. rewrite H. destruct (subscribed w); reflexivity.
Qed.

Lemma other_app_states_are_ignored_witness :
  (unknown <> background /\ unknown <> inactive /\ unknown <> active)
  /\ handleAppStateChange false unknown 5 (mount 30) = mount 30
  /\ step "focus1" false (AppStateChange unknown 5) (mount 30) = mount 30.
Proof.
  split.
  - repeat split; discriminate.
  - apply (other_app_states_are_ignored "focus1" false unknown 5 (mount 30));
      discriminate.
Defined.

(** ** The grace countdown *)

Lemma graceTick_running (w : World) (gr : Z) :
  graceTimeRemaining w = Some gr -> 1 < gr ->
  graceTick w = set_graceTimeRemaining (Some (gr - 1)) w.
Proof.
  intros H Hgr. unfold graceTick. rewrite H.
  destruct (gr <=? 1) eqn:E; [|reflexivity].
  apply Z.leb_le in E. lia.
Qed.

Lemma graceTick_last (w : World) (gr : Z) :
  graceTimeRemaining w = Some gr -> gr <= 1 ->
  graceTick w = set_graceTimeRemaining (Some 0) (handleGracePeriodExpired w).
Proof.
  intros H Hgr. unfold graceTick. rewrite H.
  destruct (gr <=? 1) eqn:E; [reflexivity|].
  apply Z.leb_gt in E. lia.
Qed.

Lemma firings_cons_same (x : TimerId) (tr : list Event) :
  firings x (Tick x :: tr) = S (firings x tr).
Proof. unfold firings. simpl. rewrite Nat.eqb_refl. reflexivity. Qed.

Lemma firings_cons_other (x y : TimerId) (tr : list Event) :
  y <> x -> firings x (Tick y :: tr) = firings x tr.
Proof.
  intros H. unfold firings. simpl.
  destruct (Nat.eqb y x) eqn:E; [|reflexivity].
  apply Nat.eqb_eq in E. contradiction.
Qed.

Lemma lookupInterval_fresh (w : World) :
  freshHandles w -> lookupInterval (nextTimerId w) (intervals w) = None.
Proof.
  unfold freshHandles. generalize (nextTimerId w) as g.
  induction (intervals w) as [|[u cb] l IH]; intros g H; [reflexivity|].
  inversion H as [|? ? Hu Hl]; subst. simpl in *.
  destruct (Nat.eqb u g) eqn:E.
  - apply Nat.eqb_eq in E. lia.
  - apply IH, Hl.
Qed.

Lemma filter_fresh (g : TimerId) (l : list (TimerId * Callback)) :
  Forall (fun p => (fst p < g)%nat) l ->
  filter (fun p => negb (Nat.eqb (fst p) g)) l = l.
Proof.
  induction 1 as [|[u cb] l Hu Hl IH]; [reflexivity|].
  simpl in *. rewrite IH.
  destruct (Nat.eqb u g) eqn:E; [|reflexivity].
  apply Nat.eqb_eq in E. lia.
Qed.

Lemma lookupInterval_stopSession_None (success : bool) (w : World)
    (x : TimerId) :
  lookupInterval x (intervals w) = None ->
  lookupInterval x (intervals (stopSession success w)) = None.
Proof.
  intros H. rewrite intervals_stopSession.
  apply lookupInterval_clearGraceTimer.
  destruct (timerIntervalRef w) as [t|]; [|exact H].
  cbn. rewrite lookupInterval_filter, H.
  destruct (Nat.eqb x t); reflexivity.
Qed.

Lemma timeRemaining_stopSession (success : bool) (w : World) :
  timeRemaining (stopSession success w) = timeRemaining w.
Proof.
  unfold stopSession, clearGraceTimer.
  destruct w as [tr gr sr ti gt bt iv nt pe ns su al ac di nh]; simpl.
  destruct ti, gt, sr; reflexivity.
Qed.

(** What a background-enter does to a free-tier session. *)
Lemma handleAppBackground_free (now : Z) (w : World) :
  handleAppBackground false now w
  = mkWorld (timeRemaining w) (Some GRACE_PERIOD_SECONDS) (soundRef w)
      (timerIntervalRef w) (Some (nextTimerId w)) (Some now)
      (intervals w ++ [(nextTimerId w, GraceTick)]) (S (nextTimerId w))
      (pending w) (nextSound w) (subscribed w) (alerts w) (audioCalls w)
      (diagnostics w) (navigatedHome w).
Proof. reflexivity. Qed.

Lemma step_background_free trackId (s : AppStateStatus) (now : Z) (w : World) :
  subscribed w = true ->
  s = background \/ s = inactive ->
  step trackId false (AppStateChange s now) w = handleAppBackground false now w.
Proof.
  intros Hsub [-> | ->]; unfold step; rewrite Hsub; reflexivity.
Qed.

(** C2, as stated, fails when the main countdown runs out inside the
    window: a running free-tier session with five seconds left that is
    sent to the background and never returns is completed by its main
    interval after five seconds; that stop disarms the grace interval, so
    the failure outcome is never produced, however long the app stays in
    the background. *)
Lemma grace_expiry_preempted_by_completion :
  let w := run "focus1" false (ticks 1%nat 55) (mount 1) in
  let second := [Tick 1%nat; Tick 2%nat] in
  let w' := run "focus1" false
              (AppStateChange background 55 :: List.concat (repeat second 15))
              w in
  (timeRemaining w = 5 /\ graceTimerRef w = None /\ alerts w = []
   /\ intervals w = [(1%nat, MainTick)])
  /\ alerts w' = [SessionCompleteAlert]
  /\ ~ In SessionFailedAlert (alerts w')
  /\ intervals w' = [].
Proof.
  vm_compute. repeat split; try reflexivity.
  intros [H | []]. discriminate H.
Qed.

(** ** Stopping twice *)

Lemma stopSession_idle (success : bool) (w : World) :
  timerIntervalRef w = None ->
  graceTimerRef w = None ->
  soundRef w = None ->
  stopSession success w = showResult success w.
Proof.
  intros H1 H2 H3. unfold stopSession, clearGraceTimer.
  rewrite H1, H2, H3. reflexivity.
Qed.

(** C1, as amended.  Let a first [stopSession] run to its end (its two
    awaited audio promises fulfil).  A second [stopSession], with either
    flag, then finds no timer handle and no sound handle: it mutates no
    timer and neither counter, and it makes no audio call.  It is not
    guarded by the outcome, though: it raises one more result dialog, the
    one of its own flag. *)
Theorem second_stopSession_only_alerts :
  forall (trackId : string) (isPremium : bool) (first second : bool)
         (w : World),
    let p := List.length (pending w) in
    let w1 := run trackId isPremium
                [Settle p Fulfilled; Settle p Fulfilled]
                (stopSession first w) in
    let w2 := stopSession second w1 in
    w2 = showResult second w1
    /\ intervals w2 = intervals w1
    /\ timerIntervalRef w2 = timerIntervalRef w1
    /\ graceTimerRef w2 = graceTimerRef w1
    /\ timeRemaining w2 = timeRemaining w1
    /\ graceTimeRemaining w2 = graceTimeRemaining w1
    /\ audioCalls w2 = audioCalls w1
    /\ pending w2 = pending w1
    /\ alerts w2
       = alerts w1
         ++ [if second then SessionCompleteAlert else SessionFailedAlert].
Proof.
  intros trackId isPremium first second w p w1 w2.
  destruct (stopSession_settled trackId isPremium first w)
    as (_ & Hs & Ht & Hg & _).
  fold p in Hs, Ht, Hg. fold w1 in Hs, Ht, Hg.
  assert (E : w2 = showResult second w1).
  { unfold w2. apply stopSession_idle; assumption. }
  rewrite E. repeat split; reflexivity.
Qed.

(** C1, as stated, fails: on a mounted session whose sound is not loaded
    yet, the first [stopSession] raises the completion dialog, and a
    second one raises another dialog, which even contradicts the first
    when the flags differ. *)
Lemma second_stopSession_alerts_again :
  let w1 := stopSession true (mount 1) in
  alerts w1 = [SessionCompleteAlert]
  /\ pending w1 = pending (mount 1)
  /\ alerts (stopSession true w1)
     = [SessionCompleteAlert; SessionCompleteAlert]
  /\ alerts (stopSession false w1)
     = [SessionCompleteAlert; SessionFailedAlert].
Proof. vm_compute. repeat split; reflexivity. Qed.

(** ** App-state changes after the session stopped *)

Lemma graceTimerRef_run_settles trackId isPremium
    (settles : list (nat * Settled)) (w : World) :
  graceTimerRef
    (run trackId isPremium
       (map (fun ir => Settle (fst ir) (snd ir)) settles) w)
  = graceTimerRef w.
Proof.
  revert w. induction settles as [|[i r] l IH]; intros w; [reflexivity|].
  cbn [map fst snd]. rewrite run_cons, IH.
  apply graceTimerRef_step_Settle.
Qed.

(** C3, as amended.  On a premium session every app-state change is
    ignored, in any state and so also after the session stopped.  On a
    free-tier session the handlers are not gated on the outcome: after
    [stopSession] (and however much of its audio teardown has settled) a
    foreground-enter finds no grace interval armed and does nothing, but
    a background-enter arms a fresh 10-second grace interval exactly as
    it does in a running session. *)
Theorem app_state_changes_after_stop :
  forall (trackId : string) (success : bool) (w w0 : World)
         (settles : list (nat * Settled)) (s : AppStateStatus) (now : Z),
    let w' := run trackId false
                (map (fun ir => Settle (fst ir) (snd ir)) settles)
                (stopSession success w) in
    step trackId true (AppStateChange s now) w0 = w0
    /\ step trackId false (AppStateChange active now) w' = w'
    /\ handleAppBackground false now w'
       = mkWorld (timeRemaining w') (Some GRACE_PERIOD_SECONDS) (soundRef w')
           (timerIntervalRef w') (Some (nextTimerId w')) (Some now)
           (intervals w' ++ [(nextTimerId w', GraceTick)])
           (S (nextTimerId w')) (pending w') (nextSound w') (subscribed w')
           (alerts w') (audioCalls w') (diagnostics w') (navigatedHome w').
Proof.
  intros trackId success w w0 settles s now w'.
  split; [|split].
  - unfold step. destruct (subscribed w0), s; reflexivity.
  - assert (Hg : graceTimerRef w' = None).
    { unfold w'. rewrite graceTimerRef_run_settles.
      apply stopSession_refs. }
    unfold step, handleAppStateChange, handleAppForeground.
    rewrite Hg. destruct (subscribed w'); reflexivity.
  - apply handleAppBackground_free.
Qed.

(** C3, as stated, fails: a free-tier session that completed (the
    completion dialog is up, no interval is armed) and is then sent to
    the background gets a grace interval armed, and ten firings later the
    failure dialog is raised on top of the completion dialog. *)
Lemma background_after_completion_arms_grace :
  let w := run "focus1" false (ticks 1%nat 60) (mount 1) in
  let w1 := step "focus1" false (AppStateChange background 61) w in
  (alerts w = [SessionCompleteAlert] /\ intervals w = []
   /\ graceTimeRemaining w = None)
  /\ intervals w1 = [(2%nat, GraceTick)]
  /\ graceTimerRef w1 = Some 2%nat
  /\ graceTimeRemaining w1 = Some 10
  /\ alerts (run "focus1" false (ticks 2%nat 10) w1)
     = [SessionCompleteAlert; SessionFailedAlert].
Proof. vm_compute. repeat split; reflexivity. Qed.

(** ** Starting a session *)

(** C5, as amended.  When [trackId] names no track of the catalogue,
    [initializeAudio] raises the 'Music track not found' dialog and stops
    there: no sound is created and nothing is left pending.  The session
    is not failed and no cleanup runs: the main interval, which the mount
    effect arms without waiting for the lookup, stays armed with the full
    duration on the clock. *)
Theorem unknown_track_is_reported_and_session_runs :
  forall (duration : Z) (trackId : string) (isPremium : bool),
    getTrackAssetById trackId = None ->
    let w := run trackId isPremium [Settle 0%nat Fulfilled] (mount duration) in
    alerts w = [TrackNotFoundAlert]
    /\ terminalAlerts w = []
    /\ soundRef w = None
    /\ pending w = []
    /\ audioCalls w = [SetAudioMode]
    /\ intervals (mount duration) = [(1%nat, MainTick)]
    /\ intervals w = [(1%nat, MainTick)]
    /\ timerIntervalRef w = Some 1%nat
    /\ timeRemaining w = duration * 60.
Proof.
  intros duration trackId isPremium H w. subst w.
  unfold run, fold_left, step, mount. cbn [pending nth_error].
  cbn. rewrite H. cbn. repeat split; reflexivity.
Qed.

Lemma unknown_track_is_reported_and_session_runs_witness :
  getTrackAssetById "nosuch" = None
  /\ alerts (run "nosuch" false [Settle 0%nat Fulfilled] (mount 30))
     = [TrackNotFoundAlert]
  /\ intervals (run "nosuch" false [Settle 0%nat Fulfilled] (mount 30))
     = [(1%nat, MainTick)].
Proof.
  split; [reflexivity|].
  pose proof (unknown_track_is_reported_and_session_runs 30 "nosuch" false
                eq_refl) as H.
  cbv zeta in H. split; [apply H|apply H].
Defined.

(** C5, as stated, fails: with a [trackId] the catalogue does not know,
    the main interval is armed at mount, the only dialog is the error
    dialog, no failure is declared, and the thirty-minute session runs to
    its successful completion without audio. *)
Lemma unknown_track_session_runs_to_completion :
  let w := run "nosuch" false [Settle 0%nat Fulfilled] (mount 30) in
  getTrackAssetById "nosuch" = None
  /\ lookupInterval 1%nat (intervals (mount 30)) = Some MainTick
  /\ lookupInterval 1%nat (intervals w) = Some MainTick
  /\ alerts w = [TrackNotFoundAlert]
  /\ alerts (run "nosuch" false (ticks 1%nat 1800) w)
     = [TrackNotFoundAlert; SessionCompleteAlert].
Proof. vm_compute. repeat split; reflexivity. Qed.

(** C9, as amended.  With a duration of zero or less, [startTimer] still
    arms the one-second interval and nothing completes at start; the
    first firing of that interval, one second later, stops the session
    as completed, sets [timeRemaining] to 0 and disarms the interval. *)
Theorem nonpositive_duration_completes_on_first_tick :
  forall (trackId : string) (isPremium : bool) (duration : Z),
    duration <= 0 ->
    let w := mount duration in
    let w' := step trackId isPremium (Tick 1%nat) w in
    intervals w = [(1%nat, MainTick)]
    /\ alerts w = []
    /\ timeRemaining w = duration * 60
    /\ timeRemaining w' = 0
    /\ alerts w' = [SessionCompleteAlert]
    /\ intervals w' = []
    /\ timerIntervalRef w' = None.
Proof.
  intros trackId isPremium duration H w w'.
  assert (E : w' = set_timeRemaining 0 (stopSession true w)).
  { unfold w'. rewrite step_Tick_main by reflexivity.
    apply mainTick_last. cbn. lia. }
  rewrite E. cbn. repeat split; reflexivity.
Qed.

Lemma nonpositive_duration_completes_on_first_tick_witness :
  0 <= 0
  /\ intervals (mount 0) = [(1%nat, MainTick)]
  /\ alerts (mount 0) = []
  /\ alerts (step "focus1" false (Tick 1%nat) (mount 0))
     = [SessionCompleteAlert].
Proof.
  split; [lia|].
  pose proof (nonpositive_duration_completes_on_first_tick "focus1" false 0
                (Z.le_refl 0)) as H.
  cbv zeta in H. repeat split; apply H.
Defined.

(** C9, as stated, fails: a session mounted with duration 0 (or a
    negative one) has raised no dialog and has its interval armed. *)
Lemma nonpositive_duration_still_schedules_tick :
  alerts (mount 0) = []
  /\ intervals (mount 0) = [(1%nat, MainTick)]
  /\ timerIntervalRef (mount 0) = Some 1%nat
  /\ alerts (mount (-5)) = []
  /\ intervals (mount (-5)) = [(1%nat, MainTick)].
Proof. vm_compute. repeat split; reflexivity. Qed.

(** ** Skipping *)

Lemma existsb_snoc_alert (a : Alert) (l : list Alert) :
  existsb (alert_eqb a) (l ++ [a]) = true.
Proof.
  rewrite existsb_app. cbn. destruct a; cbn; apply orb_true_r.
Qed.

(** C6, as amended.  On a free-tier session the skip button raises the
    'Premium Feature' dialog and changes nothing else.  On a premium
    session it raises the 'Skip Session' confirmation and changes nothing
    else; 'Cancel' leaves the session as it is, and 'Skip' runs
    [stopSession true]: the main interval and any grace interval are
    disarmed and, once the audio teardown has settled, the session ends
    with the completion dialog (there is no outcome of its own for a
    skipped session). *)
Theorem skip_is_rejected_or_confirmed_then_stops :
  forall (trackId : string) (w : World),
    let asked := handleSkip true w in
    let stopped := step trackId true (PressAlert SkipSessionAlert SkipButton)
                     asked in
    let p := List.length (pending w) in
    handleSkip false w = alert PremiumFeatureAlert w
    /\ asked = alert SkipSessionAlert w
    /\ step trackId true (PressAlert SkipSessionAlert CancelButton) asked
       = asked
    /\ stopped = stopSession true asked
    /\ timerIntervalRef stopped = None
    /\ graceTimerRef stopped = None
    /\ match timerIntervalRef w with
       | Some t => lookupInterval t (intervals stopped) = None
       | None => True
       end
    /\ match graceTimerRef w with
       | Some g => lookupInterval g (intervals stopped) = None
       | None => True
       end
    /\ alerts (run trackId true [Settle p Fulfilled; Settle p Fulfilled]
                 stopped)
       = alerts w ++ [SkipSessionAlert; SessionCompleteAlert].
Proof.
  intros trackId w asked stopped p.
  assert (Ea : asked = alert SkipSessionAlert w) by reflexivity.
  assert (Hex : existsb (alert_eqb SkipSessionAlert) (alerts asked) = true).
  { rewrite Ea. cbn [alerts alert set_alerts]. apply existsb_snoc_alert. }
  assert (Es : stopped = stopSession true asked).
  { unfold stopped, step. rewrite Hex. reflexivity. }
  destruct (stopSession_refs true asked) as [H1 H2].
  repeat split; try assumption; try reflexivity.
  - unfold step. rewrite Hex. reflexivity.
  - rewrite Es. exact H1.
  - rewrite Es. exact H2.
  - destruct (timerIntervalRef w) as [t|] eqn:Ht; [|exact I].
    rewrite Es. apply stopSession_disarms_main. exact Ht.
  - destruct (graceTimerRef w) as [g|] eqn:Hg; [|exact I].
    rewrite Es. apply stopSession_disarms_grace. exact Hg.
  - rewrite Es.
    pose proof (proj1 (stopSession_settled trackId true true asked)) as H.
    cbv zeta in H. change (List.length (pending asked)) with p in H.
    rewrite H. rewrite Ea. cbn [alerts alert set_alerts].
    rewrite <- app_assoc. reflexivity.
Qed.

(** C6, as stated, fails on its premium half: the skip request of a
    premium user on a running session stops nothing by itself.  The
    confirmation dialog is raised, the main interval stays armed, no
    result dialog appears, and after 'Cancel' the countdown goes on. *)
Lemma skip_request_alone_stops_nothing :
  let w := step "focus1" true PressSkip (mount 1) in
  alerts w = [SkipSessionAlert]
  /\ terminalAlerts w = []
  /\ lookupInterval 1%nat (intervals w) = Some MainTick
  /\ timerIntervalRef w = Some 1%nat
  /\ timeRemaining
       (run "focus1" true
          (PressAlert SkipSessionAlert CancelButton :: ticks 1%nat 3) w)
     = 57
  /\ terminalAlerts
       (run "focus1" true
          (PressAlert SkipSessionAlert CancelButton :: ticks 1%nat 3) w)
     = [].
Proof. vm_compute. repeat split; reflexivity. Qed.

(** ** Two defects *)

(** C7 does not hold of the code.  A one-minute session whose sound
    loaded runs its countdown down; [stopSession true] disarms the
    interval and suspends at [stopAsync].  When that promise rejects,
    the rest of [stopSession] is abandoned: no result dialog is ever
    raised, [unloadAsync] is never called, the sound handle stays in its
    ref and the rejection is left unhandled.  The same rejection inside
    [cleanup] is caught and logged. *)
Lemma stopSession_teardown_rejection_drops_outcome :
  let w := run "focus1" false
             ([Settle 0%nat Fulfilled; Settle 0%nat Fulfilled]
              ++ ticks 1%nat 60) (mount 1) in
  let w' := step "focus1" false (Settle 0%nat Rejected) w in
  (soundRef w = Some 0%nat /\ pending w = [StopAwaitStop true]
   /\ intervals w = [] /\ alerts w = [])
  /\ alerts w' = []
  /\ pending w' = []
  /\ diagnostics w' = [UnhandledRejection]
  /\ soundRef w' = Some 0%nat
  /\ audioCalls w'
     = [SetAudioMode; CreateAsync focus1_mp3; StopAsync 0%nat]
  /\ diagnostics
       (resume "focus1" CleanupAwaitStop Rejected w)
     = [ErrorCleaningUpAudio].
Proof. vm_compute. repeat split; reflexivity. Qed.

(** C8 does not hold of the code.  'inactive' followed by 'background'
    (no foreground in between) on a free-tier session arms a second
    grace interval without disarming the first, whose handle is
    overwritten in the ref.  Both fire, so the grace countdown runs out
    after five seconds instead of ten; and a foreground-enter disarms
    only the second, leaving the first armed with no handle left to
    clear it. *)
Lemma second_background_leaves_stale_grace_timer :
  let w := run "focus1" false
             [AppStateChange inactive 0; AppStateChange background 1]
             (mount 1) in
  let back := step "focus1" false (AppStateChange active 2) w in
  let second := [Tick 1%nat; Tick 2%nat; Tick 3%nat] in
  intervals w = [(1%nat, MainTick); (2%nat, GraceTick); (3%nat, GraceTick)]
  /\ graceTimerRef w = Some 3%nat
  /\ intervals back = [(1%nat, MainTick); (2%nat, GraceTick)]
  /\ graceTimerRef back = None
  /\ alerts (run "focus1" false (List.concat (repeat second 4)) w) = []
  /\ alerts (run "focus1" false (List.concat (repeat second 5)) w)
     = [SessionFailedAlert]
  /\ timeRemaining (run "focus1" false (List.concat (repeat second 5)) w)
     = 55.
Proof. vm_compute. repeat split; reflexivity. Qed.

(** ** Handles stay fresh in every reachable state *)

Lemma Forall_filter_keep {A : Type} (P : A -> Prop) (f : A -> bool)
    (l : list A) :
  Forall P l -> Forall P (filter f l).
Proof.
  induction 1 as [|x l Hx Hl IH]; cbn; [constructor|].
  destruct (f x); [constructor; assumption|assumption].
Qed.

Lemma Forall_fresh_snoc (n : TimerId) (cb : Callback)
    (l : list (TimerId * Callback)) :
  Forall (fun p => (fst p < n)%nat) l ->
  Forall (fun p => (fst p < S n)%nat) (l ++ [(n, cb)]).
Proof.
  intros H. apply Forall_app. split.
  - eapply Forall_impl; [|exact H]. cbn. intros a Ha. lia.
  - constructor; [cbn; lia|constructor].
Qed.

Create HintDb fresh.
#[local] Hint Resolve Forall_filter_keep Forall_fresh_snoc : fresh.

Ltac fresh_cases :=
  unfold freshHandles in *; cbn in *; auto with fresh.

Lemma freshHandles_clearGraceTimer (w : World) :
  freshHandles w -> freshHandles (clearGraceTimer w).
Proof.
  unfold clearGraceTimer. destruct (graceTimerRef w); fresh_cases.
Qed.

Lemma freshHandles_stopSession (success : bool) (w : World) :
  freshHandles w -> freshHandles (stopSession success w).
Proof.
  unfold stopSession, clearGraceTimer.
  destruct w as [tr gr sr ti gt bt iv nt pe ns su al ac di nh].
  destruct ti, gt, sr; fresh_cases.
Qed.

Lemma freshHandles_cleanup (w : World) :
  freshHandles w -> freshHandles (cleanup w).
Proof.
  unfold cleanup, clearGraceTimer.
  destruct w as [tr gr sr ti gt bt iv nt pe ns su al ac di nh].
  destruct ti, gt, sr; fresh_cases.
Qed.

Lemma freshHandles_resume trackId (k : Cont) (r : Settled) (w : World) :
  freshHandles w -> freshHandles (resume trackId k r w).
Proof.
  destruct k, r; cbn; try (intros H; exact H);
    try (destruct (getTrackAssetById trackId); intros H; exact H);
    destruct (soundRef w); intros H; exact H.
Qed.

Lemma freshHandles_mount (duration : Z) : freshHandles (mount duration).
Proof.
  unfold freshHandles. cbn [mount intervals nextTimerId].
  cbn. constructor; [cbn; lia|constructor].
Qed.

Lemma freshHandles_step trackId isPremium (e : Event) (w : World) :
  freshHandles w -> freshHandles (step trackId isPremium e w).
Proof.
  intros H. destruct e as [t|s now| |a b|i r|]; unfold step.
  - destruct (lookupInterval t (intervals w)) as [[|]|]; [| |exact H].
    + unfold mainTick, handleSessionComplete.
      destruct (timeRemaining w <=? 1); [|exact H].
      apply (freshHandles_stopSession true) in H. exact H.
    + unfold graceTick, handleGracePeriodExpired.
      destruct (graceTimeRemaining w) as [prev|]; [|exact H].
      destruct (prev <=? 1); [|exact H].
      apply freshHandles_clearGraceTimer in H.
      apply (freshHandles_stopSession false) in H. exact H.
  - destruct (subscribed w); [|exact H].
    unfold handleAppStateChange, handleAppBackground, handleAppForeground.
    destruct s, isPremium; try exact H; cbn [negb].
    + destruct (graceTimerRef w) eqn:E; [|exact H].
      apply freshHandles_clearGraceTimer in H. exact H.
    + fresh_cases.
    + fresh_cases.
  - unfold handleSkip. destruct (negb isPremium); exact H.
  - destruct (existsb (alert_eqb a) (alerts w)); [|exact H].
    destruct a, b; try exact H.
    apply (freshHandles_stopSession true), H.
  - destruct (nth_error (pending w) i); [|exact H].
    apply freshHandles_resume. exact H.
  - apply freshHandles_cleanup in H. exact H.
Qed.

Lemma freshHandles_run trackId isPremium (es : list Event) (w : World) :
  freshHandles w -> freshHandles (run trackId isPremium es w).
Proof.
  revert w. induction es as [|e es IH]; intros w H; [exact H|].
  rewrite run_cons. apply IH, freshHandles_step, H.
Qed.

(** A background-enter on a free-tier session whose grace interval [g] is
    armed leaves [g] armed and arms one more, under a new handle that
    replaces [g] in the ref. *)
Lemma handleAppBackground_keeps_old_grace (now : Z) (w : World) (g : TimerId) :
  freshHandles w ->
  graceTimerRef w = Some g ->
  lookupInterval g (intervals w) = Some GraceTick ->
  let w' := handleAppBackground false now w in
  lookupInterval g (intervals w') = Some GraceTick
  /\ lookupInterval (nextTimerId w) (intervals w') = Some GraceTick
  /\ graceTimerRef w' = Some (nextTimerId w)
  /\ g <> nextTimerId w.
Proof.
  intros Hfresh Hg Hl w'. subst w'. rewrite handleAppBackground_free.
  cbn [intervals graceTimerRef]. rewrite !lookupInterval_app, Hl.
  rewrite lookupInterval_fresh by exact Hfresh.
  cbn. rewrite Nat.eqb_refl. repeat split.
  intros ->. rewrite lookupInterval_fresh in Hl by exact Hfresh.
  discriminate Hl.
Qed.

(** ** Two sessions played through *)

(** A free-tier hour: left at 5 s, back at 8 s, then the countdown runs
    to its end. *)
Example free_tier_hour_with_short_absence :
  let second := [Tick 1%nat; Tick 2%nat] in
  let w := run "focus1" false
             (ticks 1%nat 5
              ++ [AppStateChange background 5]
              ++ List.concat (repeat second 3)
              ++ [AppStateChange active 8]
              ++ ticks 1%nat 3592)
             (mount 60) in
  alerts w = [SessionCompleteAlert]
  /\ timeRemaining w = 0
  /\ intervals w = []
  /\ graceTimeRemaining w = None.
Proof. vm_compute. repeat split; reflexivity. Qed.

(** The same hour, never returned to: failed ten seconds after leaving,
    with the countdown frozen at the value it had. *)
Example free_tier_hour_abandoned :
  let second := [Tick 1%nat; Tick 2%nat] in
  let w := run "focus1" false
             (ticks 1%nat 5
              ++ [AppStateChange background 5]
              ++ List.concat (repeat second 10))
             (mount 60) in
  alerts w = [SessionFailedAlert]
  /\ timeRemaining w = 3600 - 15
  /\ intervals w = []
  /\ run "focus1" false (List.concat (repeat second 5)) w = w.
Proof. vm_compute. repeat split; reflexivity. Qed.

(** ** The clock face *)

Lemma faceAgrees_sound (face : Z -> string) (n : nat) :
  forall from : Z,
    faceAgrees face n from = true ->
    forall x : Z,
      from <= x < from + Z.of_nat n ->
      padStart 2 "0" (toString x) = face x.
Proof.
  induction n as [|n IH]; intros from H x Hx; [lia|].
  cbn [faceAgrees] in H. apply andb_prop in H. destruct H as [H1 H2].
  destruct (Z.eq_dec x from) as [->|Hne].
  - apply String.eqb_eq, H1.
  - apply (IH (from + 1) H2). lia.
Qed.

Lemma minutesFace_checked : faceAgrees minutesFace (Z.to_nat 1000) 0 = true.
Proof. vm_compute. reflexivity. Qed.

Lemma secondsFace_checked : faceAgrees secondsFace (Z.to_nat 60) 0 = true.
Proof. vm_compute. reflexivity. Qed.

(** X1.  For every number of seconds from 0 up to (not including) 1000
    minutes the clock face is the minutes, written with at least two
    digits, a colon, and the seconds of the minute written with exactly
    two digits: five characters up to 99:59, six from 100:00 on (the
    two-hour session starts at 120:00; the minutes are never cut to two
    digits). *)
Theorem formatTime_shows_minutes_and_seconds :
  forall s : Z,
    0 <= s < 60000 ->
    formatTime s = clockFace s
    /\ String.length (formatTime s) = if s <? 6000 then 5%nat else 6%nat.
Proof.
  intros s Hs.
  assert (Hm : 0 <= s / 60 < 1000).
  { split; [apply Z.div_pos; lia|apply Z.div_lt_upper_bound; lia]. }
  assert (Hr : 0 <= s mod 60 < 60) by (apply Z.mod_pos_bound; lia).
  assert (E : formatTime s = clockFace s).
  { unfold formatTime, clockFace. cbv zeta.
    rewrite Z.rem_mod_nonneg by lia.
    rewrite (faceAgrees_sound minutesFace (Z.to_nat 1000) 0
               minutesFace_checked (s / 60)) by lia.
    rewrite (faceAgrees_sound secondsFace (Z.to_nat 60) 0
               secondsFace_checked (s mod 60)) by lia.
    reflexivity. }
  split; [exact E|].
  rewrite E. unfold clockFace, minutesFace, secondsFace.
  destruct (s <? 6000) eqn:E1; destruct (s / 60 <? 100) eqn:E2;
    try reflexivity.
  - apply Z.ltb_lt in E1. apply Z.ltb_ge in E2.
    assert (s / 60 < 100) by (apply Z.div_lt_upper_bound; lia). lia.
  - apply Z.ltb_ge in E1. apply Z.ltb_lt in E2.
    assert (100 <= s / 60) by (apply Z.div_le_lower_bound; lia). lia.
Qed.

Lemma formatTime_shows_minutes_and_seconds_witness :
  0 <= 7200 < 60000
  /\ formatTime 7200 = "120:00"%string
  /\ String.length (formatTime 7200) = 6%nat.
Proof.
  split; [lia|].
  destruct (formatTime_shows_minutes_and_seconds 7200) as [H1 H2]; [lia|].
  split; [rewrite H1; reflexivity|exact H2].
Defined.

Lemma splitColon_numeral (d : Decimal.uint) (b : string) :
  splitColon (NilEmpty.string_of_uint d ++ String ":" b)
  = Some (NilEmpty.string_of_uint d, b).
Proof.
  induction d; cbn; try rewrite IHd; reflexivity.
Qed.

Lemma readNumeral_numeral (d : Decimal.uint) :
  readNumeral (NilEmpty.string_of_uint d) = Some (Z.of_uint d).
Proof. unfold readNumeral. rewrite NilEmpty.usu. reflexivity. Qed.

Lemma toString_numeral (n : Z) :
  0 <= n ->
  exists d : Decimal.uint,
    toString n = NilEmpty.string_of_uint d
    /\ Z.of_uint d = n
    /\ d <> Decimal.Nil.
Proof.
  intros Hn. destruct n as [|p|p]; [| |lia].
  - exists (Decimal.D0 Decimal.Nil). repeat split. discriminate.
  - exists (Pos.to_uint p).
    pose proof (DecimalPos.Unsigned.to_uint_nonnil p) as Hnn.
    repeat split; [| |exact Hnn].
    + unfold toString. cbn [Z.to_int NilZero.string_of_int].
      unfold NilZero.string_of_uint.
      destruct (Pos.to_uint p); try reflexivity. contradiction.
    + unfold Z.of_uint. rewrite DecimalPos.Unsigned.of_to. reflexivity.
Qed.

Lemma padStart_numeral (n : Z) :
  0 <= n ->
  exists d : Decimal.uint,
    padStart 2 "0" (toString n) = NilEmpty.string_of_uint d
    /\ Z.of_uint d = n.
Proof.
  intros Hn. destruct (toString_numeral n Hn) as (d & E & Hd & Hnn).
  rewrite E.
  destruct (NilEmpty.string_of_uint d) as [|c [|c' s']] eqn:Es.
  - destruct d; try discriminate Es. contradiction.
  - exists (Decimal.D0 d). split; [|exact Hd]. cbn. rewrite Es. reflexivity.
  - exists d. split; [|exact Hd]. cbn. rewrite Es. reflexivity.
Qed.

(** Reading back what [formatTime] printed gives the number printed. *)
Lemma parseTime_formatTime (s : Z) :
  0 <= s -> parseTime (formatTime s) = Some s.
Proof.
  intros Hs. unfold formatTime.
  assert (Hq : 0 <= s / 60) by (apply Z.div_pos; lia).
  assert (Hr : 0 <= Z.rem s 60) by (apply Z.rem_nonneg; lia).
  destruct (padStart_numeral _ Hq) as (dm & Em & Hm).
  destruct (padStart_numeral _ Hr) as (dr & Er & Hdr).
  cbv zeta. rewrite Em, Er. unfold parseTime.
  change (NilEmpty.string_of_uint dm ++ ":" ++ NilEmpty.string_of_uint dr)%string
    with (NilEmpty.string_of_uint dm
          ++ String ":" (NilEmpty.string_of_uint dr))%string.
  rewrite splitColon_numeral, !readNumeral_numeral, Hm, Hdr.
  f_equal. rewrite Z.rem_mod_nonneg by lia.
  pose proof (Z.div_mod s 60). lia.
Qed.

(** X2.  The clock face loses nothing: two different non-negative
    numbers of seconds are never shown as the same text. *)
Theorem formatTime_injective :
  forall s1 s2 : Z,
    0 <= s1 -> 0 <= s2 -> s1 <> s2 ->
    formatTime s1 <> formatTime s2.
Proof.
  intros s1 s2 H1 H2 Hne E. apply Hne.
  pose proof (parseTime_formatTime s1 H1) as P1.
  pose proof (parseTime_formatTime s2 H2) as P2.
  rewrite E in P1. rewrite P1 in P2. congruence.
Qed.

Lemma formatTime_injective_witness :
  (0 <= 59 /\ 0 <= 60 /\ 59 <> 60)
  /\ formatTime 59 <> formatTime 60.
Proof.
  split; [repeat split; lia|].
  apply (formatTime_injective 59 60); lia.
Defined.

(** ** What the handlers leave alone *)

Lemma graceTimeRemaining_stopSession (success : bool) (w : World) :
  graceTimeRemaining (stopSession success w) = graceTimeRemaining w.
Proof.
  unfold stopSession, clearGraceTimer.
  destruct w as [tr gr sr ti gt bt iv nt pe ns su al ac di nh]; simpl.
  destruct ti, gt, sr; reflexivity.
Qed.

Lemma counters_clearGraceTimer (w : World) :
  timeRemaining (clearGraceTimer w) = timeRemaining w
  /\ graceTimeRemaining (clearGraceTimer w) = graceTimeRemaining w.
Proof. unfold clearGraceTimer. destruct (graceTimerRef w); split; reflexivity. Qed.

Lemma counters_cleanup (w : World) :
  timeRemaining (cleanup w) = timeRemaining w
  /\ graceTimeRemaining (cleanup w) = graceTimeRemaining w.
Proof.
  unfold cleanup, clearGraceTimer.
  destruct w as [tr gr sr ti gt bt iv nt pe ns su al ac di nh]; simpl.
  destruct ti, gt, sr; split; reflexivity.
Qed.

Lemma counters_resume trackId (k : Cont) (r : Settled) (w : World) :
  timeRemaining (resume trackId k r w) = timeRemaining w
  /\ graceTimeRemaining (resume trackId k r w) = graceTimeRemaining w.
Proof.
  destruct k, r; cbn; try (split; reflexivity);
    try (destruct (getTrackAssetById trackId); split; reflexivity);
    destruct (soundRef w); split; reflexivity.
Qed.

Lemma counters_onPress (a : Alert) (b : Button) (w : World) :
  timeRemaining (onPress a b w) = timeRemaining w
  /\ graceTimeRemaining (onPress a b w) = graceTimeRemaining w.
Proof.
  destruct a, b; cbn; try (split; reflexivity).
  split; [apply timeRemaining_stopSession|apply graceTimeRemaining_stopSession].
Qed.

(** Only the main interval writes [timeRemaining], and it writes what
    its updater says. *)
Lemma timeRemaining_step trackId isPremium (e : Event) (w : World) :
  timeRemaining (step trackId isPremium e w) = timeRemaining w
  \/ (exists t : TimerId,
        e = Tick t
        /\ lookupInterval t (intervals w) = Some MainTick
        /\ timeRemaining (step trackId isPremium e w)
           = if timeRemaining w <=? 1 then 0 else timeRemaining w - 1).
Proof.
  destruct e as [t|s now| |a b|i r|]; unfold step.
  - destruct (lookupInterval t (intervals w)) as [[|]|] eqn:El.
    + right. exists t. split; [reflexivity|]. split; [exact El|].
      unfold mainTick. destruct (timeRemaining w <=? 1); reflexivity.
    + left. unfold graceTick, handleGracePeriodExpired.
      destruct (graceTimeRemaining w) as [prev|]; [|reflexivity].
      destruct (prev <=? 1); [|reflexivity].
      cbn [timeRemaining set_graceTimeRemaining].
      rewrite timeRemaining_stopSession. apply counters_clearGraceTimer.
    + left. reflexivity.
  - left. destruct (subscribed w); [|reflexivity].
    unfold handleAppStateChange, handleAppBackground, handleAppForeground.
    destruct s, isPremium; cbn [negb]; try reflexivity.
    destruct (graceTimerRef w) eqn:E; [|reflexivity].
    cbn [timeRemaining set_backgroundTimeRef set_graceTimeRemaining].
    apply counters_clearGraceTimer.
  - left. unfold handleSkip. destruct (negb isPremium); reflexivity.
  - left. destruct (existsb (alert_eqb a) (alerts w)); [|reflexivity].
    apply counters_onPress.
  - left. destruct (nth_error (pending w) i); [|reflexivity].
    rewrite (proj1 (counters_resume trackId _ _ _)). reflexivity.
  - left. cbn [timeRemaining set_subscribed]. apply counters_cleanup.
Qed.

(** X3.  From any state whose countdown is not negative, whatever
    happens (firings of any interval, app-state changes, button presses,
    promises settling either way, unmounting), [timeRemaining] never
    rises and never drops below 0. *)
Theorem timeRemaining_never_rises_nor_goes_negative :
  forall (trackId : string) (isPremium : bool) (es : list Event) (w : World),
    0 <= timeRemaining w ->
    0 <= timeRemaining (run trackId isPremium es w) <= timeRemaining w.
Proof.
  intros trackId isPremium es. induction es as [|e es IH]; intros w H.
  - cbn. lia.
  - rewrite run_cons.
    assert (Hs : 0 <= timeRemaining (step trackId isPremium e w)
                 <= timeRemaining w).
    { destruct (timeRemaining_step trackId isPremium e w)
        as [E | (t & _ & _ & E)]; rewrite E; [lia|].
      destruct (timeRemaining w <=? 1) eqn:L; [lia|].
      apply Z.leb_gt in L. lia. }
    specialize (IH _ (proj1 Hs)). lia.
Qed.

Lemma timeRemaining_never_rises_nor_goes_negative_witness :
  let es := [Tick 1%nat; AppStateChange background 1; Tick 2%nat;
             Tick 1%nat; AppStateChange active 2; Settle 0%nat Rejected;
             Tick 1%nat] in
  0 <= timeRemaining (mount 1)
  /\ 0 <= timeRemaining (run "focus1" false es (mount 1))
       <= timeRemaining (mount 1).
Proof.
  intros es. split; [cbn; lia|].
  apply (timeRemaining_never_rises_nor_goes_negative "focus1" false es (mount 1)).
  cbn. lia.
Defined.

(** ** The grace counter stays in range *)

Lemma graceInRange_step trackId isPremium (e : Event) (w : World) :
  graceInRange w -> graceInRange (step trackId isPremium e w).
Proof.
  unfold graceInRange, GRACE_PERIOD_SECONDS.
  intros H. destruct e as [t|s now| |a b|i r|]; unfold step.
  - destruct (lookupInterval t (intervals w)) as [[|]|]; [| |exact H].
    + unfold mainTick, handleSessionComplete.
      destruct (timeRemaining w <=? 1); cbn [graceTimeRemaining set_timeRemaining];
        [rewrite graceTimeRemaining_stopSession|]; exact H.
    + unfold graceTick.
      destruct (graceTimeRemaining w) as [prev|] eqn:E; [|rewrite E; exact I].
      destruct (prev <=? 1) eqn:L; cbn [graceTimeRemaining set_graceTimeRemaining].
      * lia.
      * apply Z.leb_gt in L. lia.
  - destruct (subscribed w); [|exact H].
    unfold handleAppStateChange, handleAppBackground, handleAppForeground.
    destruct s, isPremium; cbn [negb]; try exact H;
      try (cbn; unfold GRACE_PERIOD_SECONDS; lia).
    destruct (graceTimerRef w); [exact I|exact H].
  - unfold handleSkip. destruct (negb isPremium); exact H.
  - destruct (existsb (alert_eqb a) (alerts w)); [|exact H].
    rewrite (proj2 (counters_onPress a b w)). exact H.
  - destruct (nth_error (pending w) i); [|exact H].
    rewrite (proj2 (counters_resume trackId _ _ _)). exact H.
  - cbn [graceTimeRemaining set_subscribed].
    rewrite (proj2 (counters_cleanup w)). exact H.
Qed.

(** X4.  In every state a mounted session can reach, the grace counter
    is either unset or lies between 0 and 10. *)
Theorem graceTimeRemaining_stays_in_range :
  forall (duration : Z) (trackId : string) (isPremium : bool)
         (es : list Event),
    graceInRange (run trackId isPremium es (mount duration)).
Proof.
  intros duration trackId isPremium es.
  assert (G : forall w, graceInRange w ->
                        graceInRange (run trackId isPremium es w)).
  { induction es as [|e es IH]; intros w H; [exact H|].
    rewrite run_cons. apply IH, graceInRange_step, H. }
  apply G. exact I.
Qed.

(** ** Once stopped, the countdown is frozen *)

Lemma lookupInterval_clearGraceTimer_Some (t : TimerId) (cb : Callback)
    (w : World) :
  lookupInterval t (intervals (clearGraceTimer w)) = Some cb ->
  lookupInterval t (intervals w) = Some cb.
Proof.
  unfold clearGraceTimer. destruct (graceTimerRef w) as [g|]; [|auto].
  cbn. rewrite lookupInterval_filter.
  destruct (Nat.eqb t g); [discriminate|auto].
Qed.

Lemma lookupInterval_stopSession_Some (success : bool) (t : TimerId)
    (cb : Callback) (w : World) :
  lookupInterval t (intervals (stopSession success w)) = Some cb ->
  lookupInterval t (intervals w) = Some cb
  /\ timerIntervalRef w <> Some t.
Proof.
  rewrite intervals_stopSession. intros H.
  apply lookupInterval_clearGraceTimer_Some in H.
  destruct (timerIntervalRef w) as [t0|]; [|split; [exact H|discriminate]].
  cbn in H. rewrite lookupInterval_filter in H.
  destruct (Nat.eqb t t0) eqn:E; [discriminate|].
  apply Nat.eqb_neq in E. split; [exact H|congruence].
Qed.

Lemma lookupInterval_cleanup_Some (t : TimerId) (cb : Callback) (w : World) :
  lookupInterval t (intervals (cleanup w)) = Some cb ->
  lookupInterval t (intervals w) = Some cb.
Proof.
  unfold cleanup.
  match goal with
  | |- context [clearGraceTimer ?x] => set (w1 := x)
  end.
  assert (H1 : forall c, lookupInterval t (intervals w1) = Some c ->
                         lookupInterval t (intervals w) = Some c).
  { subst w1. destruct (timerIntervalRef w) as [t0|]; [|auto].
    intros c. cbn. rewrite lookupInterval_filter.
    destruct (Nat.eqb t t0); [discriminate|auto]. }
  intros H. apply H1. apply lookupInterval_clearGraceTimer_Some.
  destruct (soundRef (clearGraceTimer w1)); exact H.
Qed.

Lemma timerIntervalRef_cleanup (w : World) :
  timerIntervalRef (cleanup w) = timerIntervalRef w.
Proof.
  unfold cleanup, clearGraceTimer.
  destruct w as [tr gr sr ti gt bt iv nt pe ns su al ac di nh]; simpl.
  destruct ti, gt, sr; reflexivity.
Qed.

Lemma timers_resume trackId (k : Cont) (r : Settled) (w : World) :
  intervals (resume trackId k r w) = intervals w
  /\ timerIntervalRef (resume trackId k r w) = timerIntervalRef w.
Proof.
  destruct k, r; cbn; try (split; reflexivity);
    try (destruct (getTrackAssetById trackId); split; reflexivity);
    destruct (soundRef w); split; reflexivity.
Qed.

Lemma mainOwned_clearGraceTimer (w : World) :
  mainOwned w -> mainOwned (clearGraceTimer w).
Proof.
  intros H t Ht. apply lookupInterval_clearGraceTimer_Some in Ht.
  unfold clearGraceTimer. destruct (graceTimerRef w); apply H, Ht.
Qed.

Lemma mainOwned_stopSession (success : bool) (w : World) :
  mainOwned w -> mainOwned (stopSession success w).
Proof.
  intros H t Ht. apply lookupInterval_stopSession_Some in Ht.
  destruct Ht as [Ht Hne]. apply H in Ht. contradiction.
Qed.

Lemma mainOwned_step trackId isPremium (e : Event) (w : World) :
  mainOwned w -> mainOwned (step trackId isPremium e w).
Proof.
  intros H. destruct e as [t|s now| |a b|i r|]; unfold step.
  - destruct (lookupInterval t (intervals w)) as [[|]|]; [| |exact H].
    + unfold mainTick, handleSessionComplete.
      destruct (timeRemaining w <=? 1); [|exact H].
      apply (mainOwned_stopSession true) in H. exact H.
    + unfold graceTick, handleGracePeriodExpired.
      destruct (graceTimeRemaining w) as [prev|]; [|exact H].
      destruct (prev <=? 1); [|exact H].
      apply mainOwned_clearGraceTimer in H.
      apply (mainOwned_stopSession false) in H. exact H.
  - destruct (subscribed w); [|exact H].
    unfold handleAppStateChange, handleAppBackground, handleAppForeground.
    destruct s, isPremium; cbn [negb]; try exact H.
    + destruct (graceTimerRef w) eqn:E; [|exact H].
      apply mainOwned_clearGraceTimer in H. exact H.
    + intros t Ht. cbn in Ht. rewrite lookupInterval_app in Ht.
      destruct (lookupInterval t (intervals w)) eqn:El.
      * apply H. congruence.
      * cbn in Ht. destruct (Nat.eqb (nextTimerId w) t); discriminate.
    + intros t Ht. cbn in Ht. rewrite lookupInterval_app in Ht.
      destruct (lookupInterval t (intervals w)) eqn:El.
      * apply H. congruence.
      * cbn in Ht. destruct (Nat.eqb (nextTimerId w) t); discriminate.
  - unfold handleSkip. destruct (negb isPremium); exact H.
  - destruct (existsb (alert_eqb a) (alerts w)); [|exact H].
    destruct a, b; try exact H.
    apply (mainOwned_stopSession true), H.
  - destruct (nth_error (pending w) i) as [k|]; [|exact H].
    intros t Ht.
    destruct (timers_resume trackId k r
                (set_pending (removeAt i (pending w)) w)) as [Ei Er].
    rewrite Ei in Ht. rewrite Er. apply H, Ht.
  - intros t Ht. cbn [intervals timerIntervalRef set_subscribed] in *.
    rewrite timerIntervalRef_cleanup.
    apply H, (lookupInterval_cleanup_Some _ _ _ Ht).
Qed.

Lemma mainOwned_run trackId isPremium (es : list Event) (w : World) :
  mainOwned w -> mainOwned (run trackId isPremium es w).
Proof.
  revert w. induction es as [|e es IH]; intros w H; [exact H|].
  rewrite run_cons. apply IH, mainOwned_step, H.
Qed.

Lemma mainOwned_mount (duration : Z) : mainOwned (mount duration).
Proof.
  intros t. cbn. destruct t as [|[|t]]; cbn; congruence.
Qed.

Lemma timerIntervalRef_stays_None trackId isPremium (e : Event) (w : World) :
  timerIntervalRef w = None ->
  timerIntervalRef (step trackId isPremium e w) = None.
Proof.
  intros H. destruct e as [t|s now| |a b|i r|]; unfold step.
  - destruct (lookupInterval t (intervals w)) as [[|]|]; [| |exact H].
    + unfold mainTick, handleSessionComplete.
      destruct (timeRemaining w <=? 1); [|exact H].
      apply (stopSession_refs true).
    + unfold graceTick, handleGracePeriodExpired.
      destruct (graceTimeRemaining w) as [prev|]; [|exact H].
      destruct (prev <=? 1); [|exact H].
      apply (stopSession_refs false).
  - destruct (subscribed w); [|exact H].
    unfold handleAppStateChange, handleAppBackground, handleAppForeground,
      clearGraceTimer.
    destruct s, isPremium; cbn [negb]; try exact H.
    destruct (graceTimerRef w); exact H.
  - unfold handleSkip. destruct (negb isPremium); exact H.
  - destruct (existsb (alert_eqb a) (alerts w)); [|exact H].
    destruct a, b; try exact H. apply (stopSession_refs true).
  - destruct (nth_error (pending w) i) as [k|]; [|exact H].
    rewrite (proj2 (timers_resume trackId k r _)). exact H.
  - cbn [timerIntervalRef set_subscribed].
    rewrite timerIntervalRef_cleanup. exact H.
Qed.

Lemma timeRemaining_frozen trackId isPremium (es : list Event) :
  forall w : World,
    mainOwned w -> timerIntervalRef w = None ->
    timeRemaining (run trackId isPremium es w) = timeRemaining w.
Proof.
  induction es as [|e es IH]; intros w Ho Hn; [reflexivity|].
  rewrite run_cons.
  rewrite IH by (try apply mainOwned_step; try apply timerIntervalRef_stays_None;
                 assumption).
  destruct (timeRemaining_step trackId isPremium e w)
    as [E | (t & _ & Hl & _)]; [exact E|].
  apply Ho in Hl. congruence.
Qed.

(** X5.  [stopSession] is the only code that empties [timerIntervalRef].
    Once a mounted session is in a state where it is empty, that is,
    once the session was stopped for whatever reason, no later event
    changes [timeRemaining] any more: the countdown stays at the value it
    had when the session was stopped. *)
Theorem countdown_frozen_once_stopped :
  forall (duration : Z) (trackId : string) (isPremium : bool)
         (before later : list Event),
    let w := run trackId isPremium before (mount duration) in
    timerIntervalRef w = None ->
    timeRemaining (run trackId isPremium later w) = timeRemaining w.
Proof.
  intros duration trackId isPremium before later w H.
  apply timeRemaining_frozen; [|exact H].
  apply mainOwned_run, mainOwned_mount.
Qed.

Lemma countdown_frozen_once_stopped_witness :
  let before := [Tick 1%nat; Tick 1%nat; AppStateChange background 2]
                ++ ticks 2%nat 10 in
  let later := [Tick 1%nat; AppStateChange active 20;
                AppStateChange background 21; Tick 3%nat; Tick 1%nat] in
  timerIntervalRef (run "focus1" false before (mount 1)) = None
  /\ timeRemaining
       (run "focus1" false later (run "focus1" false before (mount 1)))
     = 58.
Proof.
  intros before later. split; [reflexivity|].
  rewrite (countdown_frozen_once_stopped 1 "focus1" false before later
             eq_refl).
  reflexivity.
Defined.

(** ** A premium session never fails *)

Lemma In_removeAt {A : Type} (x : A) (i : nat) (l : list A) :
  In x (removeAt i l) -> In x l.
Proof.
  revert i. induction l as [|y l IH]; intros i H; [destruct i; exact H|].
  destruct i as [|i]; cbn in H.
  - right. exact H.
  - destruct H as [H|H]; [left; exact H|right; apply (IH i), H].
Qed.

Lemma In_snoc_other {A : Type} (x y : A) (l : list A) :
  x <> y -> In x (l ++ [y]) -> In x l.
Proof.
  intros Hne H. apply in_app_or in H. destruct H as [H|[H|[]]]; [exact H|].
  congruence.
Qed.

Lemma neverFailing_stopSession_true (w : World) :
  neverFailing w -> neverFailing (stopSession true w).
Proof.
  intros (Hg & Hp1 & Hp2 & Ha & Hgr).
  unfold neverFailing. rewrite graceTimeRemaining_stopSession.
  split; [|].
  { intros t Ht. apply lookupInterval_stopSession_Some in Ht.
    apply (Hg t), Ht. }
  destruct (soundRef w) as [s|] eqn:Es.
  - destruct (stopSession_with_sound true w s Es) as (E1 & E2 & _ & _).
    rewrite E1, E2. repeat split; try assumption;
      intros H; apply In_snoc_other in H; try discriminate; auto.
  - destruct (stopSession_without_sound true w Es) as (E1 & E2 & _ & _).
    rewrite E1, E2. repeat split; try assumption.
    intros H; apply In_snoc_other in H; try discriminate; auto.
Qed.

Lemma neverFailing_cleanup (w : World) :
  neverFailing w -> neverFailing (cleanup w).
Proof.
  intros (Hg & Hp1 & Hp2 & Ha & Hgr).
  unfold neverFailing. rewrite (proj2 (counters_cleanup w)).
  split.
  { intros t Ht. apply lookupInterval_cleanup_Some in Ht. apply (Hg t), Ht. }
  unfold cleanup, clearGraceTimer.
  destruct w as [tr gr sr ti gt bt iv nt pe ns su al ac di nh]; cbn in *.
  destruct ti, gt, sr; cbn; repeat split; try assumption;
    intros H; apply In_snoc_other in H; try discriminate; auto.
Qed.

Lemma neverFailing_resume trackId (k : Cont) (r : Settled) (w : World) :
  neverFailing w ->
  k <> StopAwaitStop false -> k <> StopAwaitUnload false ->
  neverFailing (resume trackId k r w).
Proof.
  intros (Hg & Hp1 & Hp2 & Ha & Hgr) Hk1 Hk2.
  unfold neverFailing. rewrite (proj2 (counters_resume trackId k r w)).
  rewrite (proj1 (timers_resume trackId k r w)).
  split; [exact Hg|].
  destruct k as [| |[|]|[|]| |], r; try congruence; cbn;
    try (destruct (getTrackAssetById trackId); cbn);
    try (destruct (soundRef w); cbn);
    repeat split; try assumption;
    intros H; apply In_snoc_other in H; try discriminate; auto.
Qed.

Lemma neverFailing_step trackId (e : Event) (w : World) :
  neverFailing w -> neverFailing (step trackId true e w).
Proof.
  intros H. destruct e as [t|s now| |a b|i r|]; unfold step.
  - destruct (lookupInterval t (intervals w)) as [[|]|] eqn:El; [| |exact H].
    + unfold mainTick, handleSessionComplete.
      destruct (timeRemaining w <=? 1); [|exact H].
      apply neverFailing_stopSession_true in H. exact H.
    + destruct H as (Hg & _). destruct (Hg t El).
  - destruct (subscribed w), s; exact H.
  - destruct H as (Hg & Hp1 & Hp2 & Ha & Hgr).
    cbn. repeat split; try assumption.
    intros H; apply In_snoc_other in H; try discriminate; auto.
  - destruct (existsb (alert_eqb a) (alerts w)); [|exact H].
    destruct a, b; try exact H.
    apply neverFailing_stopSession_true, H.
  - destruct (nth_error (pending w) i) as [k|] eqn:Ek; [|exact H].
    apply nth_error_In in Ek.
    destruct H as (Hg & Hp1 & Hp2 & Ha & Hgr).
    apply neverFailing_resume.
    + repeat split; try assumption; cbn;
        intros Hin; apply In_removeAt in Hin; auto.
    + intros ->. auto.
    + intros ->. auto.
  - apply neverFailing_cleanup in H. exact H.
Qed.

(** X6.  A premium session never fails and never counts a grace period:
    whatever happens after mounting (app-state changes of any kind and
    length, firings, presses, promises settling either way), the failure
    dialog is never raised, no grace interval is ever armed and the grace
    counter is never set. *)
Theorem premium_session_never_fails :
  forall (duration : Z) (trackId : string) (es : list Event),
    let w := run trackId true es (mount duration) in
    ~ In SessionFailedAlert (alerts w)
    /\ (forall t : TimerId, lookupInterval t (intervals w) <> Some GraceTick)
    /\ graceTimeRemaining w = None.
Proof.
  intros duration trackId es w.
  assert (G : forall w0, neverFailing w0 ->
                         neverFailing (run trackId true es w0)).
  { induction es as [|e es IH]; intros w0 H; [exact H|].
    rewrite run_cons. apply IH, neverFailing_step, H. }
  assert (H0 : neverFailing (mount duration)).
  { unfold neverFailing. cbn. repeat split.
    - intros t. destruct t as [|[|t]]; cbn; discriminate.
    - intros [H|[]]. discriminate.
    - intros [H|[]]. discriminate.
    - intros []. }
  destruct (G _ H0) as (Hg & _ & _ & Ha & Hgr).
  repeat split; assumption.
Qed.

Lemma step_Settle_none' trackId isPremium (w : World) (l : list Cont)
    (r : Settled) :
  pending w = l ->
  step trackId isPremium (Settle (List.length l) r) w = w.
Proof. intros <-. apply step_Settle_none. Qed.

Lemma step_Unmount trackId isPremium (w : World) :
  step trackId isPremium Unmount w = set_subscribed false (cleanup w).
Proof. reflexivity. Qed.

(** ** Returning, and the warning *)

(** X8.  A foreground-enter is idempotent, for either tier: a second
    one right after the first changes nothing.  On a free-tier session
    it leaves no grace handle behind, and when it found a grace interval
    armed the grace warning is no longer rendered. *)
Theorem foreground_enter_is_idempotent :
  forall (isPremium : bool) (w : World),
    handleAppForeground isPremium (handleAppForeground isPremium w)
    = handleAppForeground isPremium w
    /\ graceTimerRef (handleAppForeground false w) = None
    /\ match graceTimerRef w with
       | Some _ => graceWarningShown (handleAppForeground false w) = false
       | None => True
       end.
Proof.
  intros isPremium w. unfold handleAppForeground, clearGraceTimer.
  destruct isPremium; cbn [negb];
    destruct (graceTimerRef w) as [g|] eqn:E; cbn; rewrite ?E;
    repeat split; reflexivity.
Qed.

(** ** Unmounting *)

(** X9.  Unmounting never raises a dialog and never lets an audio error
    escape.  It removes the app-state subscription, disarms the interval
    held in [timerIntervalRef] and the one held in [graceTimerRef], and,
    when a sound is loaded, asks it to stop and then to unload.  However
    those two promises settle, the only trace of a failure is one
    [console.error]; nothing is left pending and no rejection is left
    unhandled. *)
Theorem unmount_tears_down_quietly :
  forall (trackId : string) (isPremium : bool) (w : World) (r1 r2 : Settled),
    let p := List.length (pending w) in
    let w' := run trackId isPremium [Unmount; Settle p r1; Settle p r2] w in
    alerts w' = alerts w
    /\ subscribed w' = false
    /\ graceTimerRef w' = None
    /\ pending w' = pending w
    /\ match timerIntervalRef w with
       | Some t => lookupInterval t (intervals w') = None
       | None => True
       end
    /\ match graceTimerRef w with
       | Some g => lookupInterval g (intervals w') = None
       | None => True
       end
    /\ match soundRef w with
       | Some s =>
           audioCalls w'
           = audioCalls w
             ++ StopAsync s
                :: match r1 with
                   | Fulfilled => [UnloadAsync s]
                   | Rejected => []
                   end
       | None => audioCalls w' = audioCalls w
       end
    /\ (diagnostics w' = diagnostics w
        \/ diagnostics w' = diagnostics w ++ [ErrorCleaningUpAudio]).
Proof.
  intros trackId isPremium w r1 r2 p w'. subst p w'.
  destruct w as [tr gr sr ti gt bt iv nt pe ns su al ac di nh].
  cbn [pending timerIntervalRef graceTimerRef soundRef alerts audioCalls
       diagnostics].
  rewrite !run_cons. unfold run, fold_left.
  rewrite step_Unmount. unfold cleanup, clearGraceTimer, clearInterval.
  destruct sr as [s|].
  - assert (E : forall w0 : World,
              pending w0 = pe ++ [CleanupAwaitStop] ->
              soundRef w0 = Some s ->
              let w1 := step trackId isPremium (Settle (List.length pe) r2)
                          (step trackId isPremium (Settle (List.length pe) r1)
                             w0) in
              alerts w1 = alerts w0 /\ subscribed w1 = subscribed w0
              /\ graceTimerRef w1 = graceTimerRef w0
              /\ pending w1 = pe
              /\ intervals w1 = intervals w0
              /\ audioCalls w1
                 = audioCalls w0
                   ++ match r1 with
                      | Fulfilled => [UnloadAsync s]
                      | Rejected => []
                      end
              /\ (diagnostics w1 = diagnostics w0
                  \/ diagnostics w1 = diagnostics w0 ++ [ErrorCleaningUpAudio])).
    { intros w0 Hp Hs w1. subst w1.
      rewrite (step_Settle_last _ _ _ _ _ r1 Hp).
      destruct r1.
      - cbn [resume soundRef set_pending]. rewrite Hs.
        rewrite (step_Settle_last _ _ _ pe CleanupAwaitUnload r2)
          by reflexivity.
        destruct r2; cbn; repeat split; auto.
      - rewrite step_Settle_none' by reflexivity.
        cbn. rewrite app_nil_r. repeat split; auto. }
    destruct ti as [t|], gt as [g|];
      cbn [timerIntervalRef graceTimerRef soundRef intervals
           set_graceTimerRef set_intervals];
      match goal with
      | |- context [step _ _ (Settle _ r1) ?x] =>
          destruct (E x eq_refl eq_refl) as (E1 & E2 & E3 & E4 & E5 & E6 & E7)
      end;
      rewrite E1, E2, E3, E4, ?E5, E6;
      destruct E7 as [E7|E7]; rewrite E7;
      cbn; rewrite ?lookupInterval_filter, ?Nat.eqb_refl, <- ?app_assoc;
      repeat split; try reflexivity; auto;
      destruct (Nat.eqb t g); reflexivity.
  - assert (E : forall w0 : World,
              pending w0 = pe ->
              step trackId isPremium (Settle (List.length pe) r2)
                (step trackId isPremium (Settle (List.length pe) r1) w0)
              = w0).
    { intros w0 Hp. rewrite <- Hp. rewrite !step_Settle_none. reflexivity. }
    destruct ti as [t|], gt as [g|];
      cbn [timerIntervalRef graceTimerRef soundRef intervals
           set_graceTimerRef set_intervals];
      rewrite E by reflexivity;
      cbn; rewrite ?lookupInterval_filter, ?Nat.eqb_refl;
      repeat split; try reflexivity; auto;
      destruct (Nat.eqb t g); reflexivity.
Qed.

Lemma getTrackAssetById_Some_inv (trackId : string) (a : Asset) :
  getTrackAssetById trackId = Some a ->
  (trackId = "focus1"%string /\ a = focus1_mp3)
  \/ (trackId = "focus2"%string /\ a = focus2_mp3).
Proof.
  unfold getTrackAssetById, musicTracks. cbn [find id asset].
  destruct (String.eqb "focus1" trackId) eqn:E1.
  - apply String.eqb_eq in E1. intros [= <-]. left. split; congruence.
  - destruct (String.eqb "focus2" trackId) eqn:E2; [|discriminate].
    apply String.eqb_eq in E2. intros [= <-]. right. split; congruence.
Qed.

(** X10.  When the screen is unmounted while the sound is still being
    loaded, [cleanup] finds no sound handle and makes no audio call; when
    the load then completes, the new handle is stored, and nothing is
    armed, pending or subscribed any more that would stop or unload it. *)
Theorem sound_loaded_after_unmount_is_not_stopped :
  forall (duration : Z) (trackId : string) (isPremium : bool) (a : Asset),
    getTrackAssetById trackId = Some a ->
    let w := run trackId isPremium
               [Unmount; Settle 0%nat Fulfilled; Settle 0%nat Fulfilled]
               (mount duration) in
    soundRef w = Some 0%nat
    /\ audioCalls w = [SetAudioMode; CreateAsync a]
    /\ pending w = []
    /\ intervals w = []
    /\ subscribed w = false
    /\ alerts w = [].
Proof.
  intros duration trackId isPremium a H w. subst w.
  destruct (getTrackAssetById_Some_inv trackId a H) as [[-> ->]|[-> ->]];
    vm_compute; repeat split; reflexivity.
Qed.

Lemma sound_loaded_after_unmount_is_not_stopped_witness :
  getTrackAssetById "focus2" = Some focus2_mp3
  /\ audioCalls
       (run "focus2" false
          [Unmount; Settle 0%nat Fulfilled; Settle 0%nat Fulfilled]
          (mount 30))
     = [SetAudioMode; CreateAsync focus2_mp3].
Proof.
  split; [reflexivity|].
  apply (sound_loaded_after_unmount_is_not_stopped 30 "focus2" false
           focus2_mp3 eq_refl).
Defined.

(** ** The catalogue and the home screen *)

(** X11.  Looking a track of the catalogue up by its own id gives that
    track's asset (no id of the catalogue shadows another), and an id
    that no track of the catalogue carries gives no asset. *)
Theorem getTrackAssetById_finds_exactly_the_catalogue :
  (forall track : MusicTrack,
     In track musicTracks ->
     getTrackAssetById (id track) = Some (asset track))
  /\ (forall trackId : string,
        (forall track : MusicTrack, In track musicTracks -> id track <> trackId) ->
        getTrackAssetById trackId = None).
Proof.
  split.
  - intros track [<-|[<-|[]]]; reflexivity.
  - intros trackId H. unfold getTrackAssetById, musicTracks. cbn [find id].
    destruct (String.eqb "focus1" trackId) eqn:E1.
    + apply String.eqb_eq in E1. exfalso.
      apply (H (Build_MusicTrack "focus1" "Focus Track 1" focus1_mp3));
        [left; reflexivity|exact E1].
    + destruct (String.eqb "focus2" trackId) eqn:E2; [|reflexivity].
      apply String.eqb_eq in E2. exfalso.
      apply (H (Build_MusicTrack "focus2" "Focus Track 2" focus2_mp3));
        [right; left; reflexivity|exact E2].
Qed.

(** X12.  Whatever duration and track buttons were pressed on the home
    screen, in whatever order, 'Start Session' never shows the 'Please
    select a music track' alert: it navigates to the session with one of
    the offered durations and with a track id the catalogue resolves, so
    the session starts with a positive countdown and its audio lookup
    succeeds. *)
Theorem home_screen_always_starts_a_valid_session :
  forall es : list HomeEvent,
    exists (d : Z) (t : string),
      handleStart (runHome es initialHome) = NavigateSession d t
      /\ In d DURATION_OPTIONS
      /\ getTrackAssetById t <> None
      /\ 0 < timeRemaining (mount d).
Proof.
  intros es.
  assert (Inv : forall h : Home,
            (In (selectedDuration h) DURATION_OPTIONS
             /\ exists track, In track musicTracks
                              /\ selectedTrackId h = Some (id track)) ->
            In (selectedDuration (runHome es h)) DURATION_OPTIONS
            /\ exists track, In track musicTracks
                             /\ selectedTrackId (runHome es h)
                                = Some (id track)).
  { induction es as [|e es IH]; intros h Hh; [exact Hh|].
    cbn [runHome fold_left]. apply IH. destruct Hh as [Hd Ht].
    destruct e as [i|i]; cbn [stepHome].
    - destruct (nth_error DURATION_OPTIONS i) as [d|] eqn:E; [|split; assumption].
      split; [exact (nth_error_In _ _ E)|exact Ht].
    - destruct (nth_error musicTracks i) as [track|] eqn:E; [|split; assumption].
      split; [exact Hd|]. exists track. split; [exact (nth_error_In _ _ E)|].
      reflexivity. }
  destruct (Inv initialHome) as [Hd (track & Hin & Ht)].
  { split; [right; left; reflexivity|].
    exists (Build_MusicTrack "focus1" "Focus Track 1" focus1_mp3).
    split; [left; reflexivity|reflexivity]. }
  exists (selectedDuration (runHome es initialHome)), (id track).
  unfold handleStart. rewrite Ht.
  assert (Hpos : 0 < timeRemaining (mount (selectedDuration (runHome es initialHome)))).
  { cbn. destruct Hd as [<-|[<-|[<-|[<-|[]]]]]; lia. }
  destruct Hin as [<-|[<-|[]]]; cbn; repeat split; try assumption;
    discriminate.
Qed.

(** ** The profile *)

Lemma getDoc_setDoc (userId other : string) (d : UserData) (db : Users) :
  getDoc other (setDoc userId d db)
  = if String.eqb userId other then Some d else getDoc other db.
Proof. reflexivity. Qed.

(** X13.  The premium flag fails closed.  After the auth listener ran,
    the session screen reads a user as premium only if somebody is
    signed in, the read of that user's document succeeded and the
    document says [isPremium: true]; a signed-out state, a failed read, a
    missing document (whether or not creating the default succeeds) and a
    document without the field all read as free tier.  The listener
    always ends with [loading] off. *)
Theorem premium_only_when_the_store_says_so :
  forall (u : option string) (rGet rSet : Settled) (a : Auth),
    let a' := authStateChanged u rGet rSet a in
    loading a' = false
    /\ user a' = u
    /\ (isPremiumOf (userData a') = true <->
        exists uid : string,
          u = Some uid /\ rGet = Fulfilled
          /\ getDoc uid (users a) = Some (Some true)).
Proof.
  intros u rGet rSet a a'. subst a'.
  unfold authStateChanged.
  split; [reflexivity|]. split.
  { destruct u as [uid|]; [|reflexivity].
    unfold fetchUserData. cbn [users user].
    destruct rGet; [|reflexivity].
    destruct (getDoc uid (users a)); [reflexivity|].
    destruct rSet; reflexivity. }
  destruct u as [uid|].
  - unfold fetchUserData. cbn [users userData].
    destruct rGet.
    + destruct (getDoc uid (users a)) as [d|] eqn:E.
      * cbn [userData setUserData]. split.
        -- intros Hp. exists uid. repeat split.
           destruct d as [[|]|]; cbn in Hp;
             [exact E|discriminate Hp|discriminate Hp].
        -- intros (x & Hu & _ & Hd). injection Hu as <-.
           rewrite E in Hd. injection Hd as ->. reflexivity.
      * split.
        -- destruct rSet; cbn; discriminate.
        -- intros (x & Hu & _ & Hd). injection Hu as <-.
           rewrite E in Hd. discriminate Hd.
    + cbn. split; [discriminate|].
      intros (x & _ & Hr & _). discriminate Hr.
  - cbn. split; [discriminate|].
    intros (x & Hu & _). discriminate Hu.
Qed.

(** X15.  The first successful fetch for a user without a document
    creates the default document [isPremium: false] and reads free tier;
    fetching again finds that document, writes nothing and leaves the
    state exactly as the first fetch left it. *)
Theorem fetchUserData_creates_the_default_once :
  forall (userId : string) (a : Auth) (rSet : Settled),
    getDoc userId (users a) = None ->
    let a1 := fetchUserData userId Fulfilled Fulfilled a in
    getDoc userId (users a1) = Some (Some false)
    /\ userData a1 = Some (Some false)
    /\ isPremiumOf (userData a1) = false
    /\ (forall other : string,
          other <> userId -> getDoc other (users a1) = getDoc other (users a))
    /\ fetchUserData userId Fulfilled rSet a1 = a1.
Proof.
  intros userId a rSet H a1. subst a1.
  unfold fetchUserData. rewrite H. cbn [users setUserData].
  rewrite getDoc_setDoc, String.eqb_refl. cbn.
  repeat split.
  intros other Hne. destruct (String.eqb userId other) eqn:E; [|reflexivity].
  apply String.eqb_eq in E. congruence.
Qed.

Lemma fetchUserData_creates_the_default_once_witness :
  let a := mkAuth (Some "u1"%string) None true
             [("u0"%string, Some true)] O in
  getDoc "u1" (users a) = None
  /\ getDoc "u1" (users (fetchUserData "u1" Fulfilled Fulfilled a))
     = Some (Some false)
  /\ getDoc "u0" (users (fetchUserData "u1" Fulfilled Fulfilled a))
     = Some (Some true).
Proof.
  intros a. split; [reflexivity|].
  destruct (fetchUserData_creates_the_default_once "u1" a Fulfilled eq_refl)
    as (H1 & _ & _ & H4 & _).
  split; [exact H1|]. rewrite H4 by discriminate. reflexivity.
Defined.

(** ** Failing takes leaving *)

Lemma neverFailing_step_staying trackId isPremium (e : Event) (w : World) :
  leavesApp e = false ->
  neverFailing w -> neverFailing (step trackId isPremium e w).
Proof.
  intros He H. destruct e as [t|s now| |a b|i r|].
  - exact (neverFailing_step trackId (Tick t) w H).
  - unfold step. destruct (subscribed w); [|exact H].
    destruct s; try discriminate He; try exact H.
    unfold handleAppStateChange, handleAppForeground.
    destruct isPremium; cbn [negb]; [exact H|].
    destruct (graceTimerRef w) eqn:E; [|exact H].
    destruct H as (Hg & Hp1 & Hp2 & Ha & Hgr).
    unfold neverFailing. cbn.
    assert (Ep : pending (clearGraceTimer w) = pending w
                 /\ alerts (clearGraceTimer w) = alerts w).
    { unfold clearGraceTimer. rewrite E. split; reflexivity. }
    destruct Ep as [Ep Ea]. rewrite Ep, Ea.
    repeat split; try assumption.
    intros x Hx.
    apply (Hg x), lookupInterval_clearGraceTimer_Some, Hx.
  - unfold step, handleSkip.
    destruct H as (Hg & Hp1 & Hp2 & Ha & Hgr).
    destruct (negb isPremium); cbn; repeat split; try assumption;
      intros H; apply In_snoc_other in H; try discriminate; auto.
  - exact (neverFailing_step trackId (PressAlert a b) w H).
  - exact (neverFailing_step trackId (Settle i r) w H).
  - exact (neverFailing_step trackId Unmount w H).
Qed.

Lemma neverFailing_mount (duration : Z) : neverFailing (mount duration).
Proof.
  unfold neverFailing. cbn. repeat split.
  - intros t. destruct t as [|[|t]]; cbn; discriminate.
  - intros [H|[]]. discriminate.
  - intros [H|[]]. discriminate.
  - intros [].
Qed.

(** X16.  Failing takes leaving.  On either tier, as long as no
    'background' or 'inactive' app-state change arrives, nothing else
    that can happen to a mounted session (firings, returns to the
    foreground, other app-state values, presses, promises settling
    either way, unmounting) raises the failure dialog or arms a grace
    interval. *)
Theorem session_that_stays_in_front_never_fails :
  forall (duration : Z) (trackId : string) (isPremium : bool)
         (es : list Event),
    Forall (fun e => leavesApp e = false) es ->
    let w := run trackId isPremium es (mount duration) in
    ~ In SessionFailedAlert (alerts w)
    /\ (forall t : TimerId, lookupInterval t (intervals w) <> Some GraceTick).
Proof.
  intros duration trackId isPremium es Hes w.
  assert (G : forall w0, neverFailing w0 ->
                         neverFailing (run trackId isPremium es w0)).
  { induction Hes as [|e es He Hes IH]; intros w0 H; [exact H|].
    rewrite run_cons. apply IH, neverFailing_step_staying; assumption. }
  destruct (G _ (neverFailing_mount duration)) as (Hg & _ & _ & Ha & _).
  split; assumption.
Qed.

Lemma session_that_stays_in_front_never_fails_witness :
  let es := ticks 1%nat 30
            ++ [AppStateChange active 30; AppStateChange unknown 31;
                PressSkip; Settle 0%nat Rejected]
            ++ ticks 1%nat 30 in
  Forall (fun e => leavesApp e = false) es
  /\ ~ In SessionFailedAlert (alerts (run "focus1" false es (mount 1))).
Proof.
  intros es.
  assert (H : Forall (fun e => leavesApp e = false) es).
  { apply Forall_forall. intros e He.
    subst es. unfold ticks in He.
    repeat (apply in_app_or in He; destruct He as [He|He]);
      try (apply repeat_spec in He; subst e; reflexivity).
    cbn in He.
    destruct He as [<-|[<-|[<-|[<-|[]]]]]; reflexivity. }
  split; [exact H|].
  exact (proj1 (session_that_stays_in_front_never_fails 1 "focus1" false es
                  H)).
Defined.

(** ** No early completion on the free tier *)












(** ** The grace window *)

(** While the countdown interval [t] and the grace interval [g] are the
    only intervals armed and neither counter is used up, firings in any
    order, also of handles that are not armed, lower the two counters and
    change nothing else. *)
Lemma run_window trackId isPremium (t g : TimerId) (tr : list Event) :
  forall (w : World) (gr : Z),
    lookupInterval t (intervals w) = Some MainTick ->
    lookupInterval g (intervals w) = Some GraceTick ->
    (forall x : TimerId,
       x <> t -> x <> g -> lookupInterval x (intervals w) = None) ->
    graceTimeRemaining w = Some gr ->
    onlyFirings tr ->
    (firings t tr = O \/ Z.of_nat (firings t tr) < timeRemaining w) ->
    Z.of_nat (firings g tr) < gr ->
    run trackId isPremium tr w
    = set_graceTimeRemaining (Some (gr - Z.of_nat (firings g tr)))
        (set_timeRemaining (timeRemaining w - Z.of_nat (firings t tr)) w).
Proof.
  induction tr as [|e tr IH]; intros w gr Ht Hg Honly Hgr Htr Hm Hgm.
  - cbn. rewrite !Z.sub_0_r. destruct w; cbn in *. rewrite Hgr. reflexivity.
  - assert (Hne : t <> g) by (intros ->; congruence).
    inversion Htr as [|? ? [x ->] Htr']; subst.
    rewrite run_cons.
    destruct (Nat.eq_dec x t) as [Ext|Hxt];
      [subst x|destruct (Nat.eq_dec x g) as [Exg|Hxg]; [subst x|]].
    + rewrite firings_cons_same in Hm |- *.
      rewrite firings_cons_other in Hgm |- * by exact Hne.
      assert (Hlt : Z.of_nat (S (firings t tr)) < timeRemaining w)
        by (destruct Hm as [Hm|Hm]; [discriminate Hm|exact Hm]).
      rewrite step_Tick_main by exact Ht.
      rewrite mainTick_running by lia.
      rewrite (IH _ gr)
        by (cbn [intervals graceTimeRemaining timeRemaining set_timeRemaining];
            try assumption; try (right; lia)).
      rewrite Nat2Z.inj_succ.
      unfold set_graceTimeRemaining, set_timeRemaining.
      cbn [timeRemaining graceTimeRemaining soundRef timerIntervalRef
           graceTimerRef backgroundTimeRef intervals nextTimerId pending
           nextSound subscribed alerts audioCalls diagnostics navigatedHome].
      f_equal. lia.
    + rewrite firings_cons_same in Hgm |- *.
      rewrite firings_cons_other in Hm |- * by (intros E; apply Hne; auto).
      rewrite step_Tick_grace by exact Hg.
      rewrite (graceTick_running _ gr) by (try exact Hgr; lia).
      rewrite (IH _ (gr - 1))
        by (cbn [intervals graceTimeRemaining timeRemaining
                 set_graceTimeRemaining];
            try assumption; try reflexivity; lia).
      rewrite Nat2Z.inj_succ.
      unfold set_graceTimeRemaining, set_timeRemaining.
      cbn [timeRemaining graceTimeRemaining soundRef timerIntervalRef
           graceTimerRef backgroundTimeRef intervals nextTimerId pending
           nextSound subscribed alerts audioCalls diagnostics navigatedHome].
      f_equal. f_equal. lia.
    + rewrite !firings_cons_other by assumption.
      rewrite firings_cons_other in Hm by assumption.
      rewrite firings_cons_other in Hgm by assumption.
      rewrite step_Tick_disarmed by (apply Honly; assumption).
      apply IH; assumption.
Qed.

(** In a running session that was just sent away, the countdown
    interval and the new grace interval are the only ones armed. *)
Lemma Running_only_two_armed (t : TimerId) (w : World) (x : TimerId) :
  Running t w ->
  x <> t -> x <> nextTimerId w ->
  lookupInterval x (intervals w ++ [(nextTimerId w, GraceTick)]) = None.
Proof.
  intros (_ & Hti & _ & Hown & Hng & _ & _) Hxt Hxg.
  rewrite lookupInterval_app.
  destruct (lookupInterval x (intervals w)) as [[|]|] eqn:E.
  - apply Hown in E. congruence.
  - destruct (Hng x E).
  - cbn. destruct (Nat.eqb (nextTimerId w) x) eqn:En; [|reflexivity].
    apply Nat.eqb_eq in En. congruence.
Qed.

(** The state of a running free-tier session after one app-state change
    that takes it out of the foreground and a window of firings that
    uses up neither counter. *)
Lemma run_leave_window trackId (s : AppStateStatus) (now : Z)
    (w : World) (t : TimerId) (tr : list Event) :
  Running t w ->
  s = background \/ s = inactive ->
  onlyFirings tr ->
  (firings t tr = O \/ Z.of_nat (firings t tr) < timeRemaining w) ->
  Z.of_nat (firings (nextTimerId w) tr) < GRACE_PERIOD_SECONDS ->
  run trackId false (AppStateChange s now :: tr) w
  = mkWorld (timeRemaining w - Z.of_nat (firings t tr))
      (Some (GRACE_PERIOD_SECONDS - Z.of_nat (firings (nextTimerId w) tr)))
      (soundRef w) (timerIntervalRef w) (Some (nextTimerId w)) (Some now)
      (intervals w ++ [(nextTimerId w, GraceTick)]) (S (nextTimerId w))
      (pending w) (nextSound w) (subscribed w) (alerts w) (audioCalls w)
      (diagnostics w) (navigatedHome w).
Proof.
  intros HR Hs Htr Hm Hg.
  pose proof HR as (Hsub & Hti & Ht & Hown & Hng & Hgt & Hfresh).
  rewrite run_cons, step_background_free by assumption.
  rewrite handleAppBackground_free.
  rewrite (run_window trackId false t (nextTimerId w) tr _
             GRACE_PERIOD_SECONDS); try assumption; try reflexivity.
  - cbn. rewrite lookupInterval_app, Ht. reflexivity.
  - cbn. rewrite lookupInterval_app, lookupInterval_fresh by exact Hfresh.
    cbn. rewrite Nat.eqb_refl. reflexivity.
  - intros x Hxt Hxg. cbn [intervals].
    apply (Running_only_two_armed t w x HR Hxt Hxg).
Qed.

(** One absence of the simple kind, shorter than the grace period and
    than what is left of the countdown. *)
Lemma run_leave_return trackId (s : AppStateStatus) (now now' : Z)
    (w : World) (t : TimerId) (tr : list Event) :
  Running t w ->
  s = background \/ s = inactive ->
  onlyFirings tr ->
  (firings t tr = O \/ Z.of_nat (firings t tr) < timeRemaining w) ->
  Z.of_nat (firings (nextTimerId w) tr) < GRACE_PERIOD_SECONDS ->
  run trackId false (AppStateChange s now :: tr ++ [AppStateChange active now'])
    w
  = mkWorld (timeRemaining w - Z.of_nat (firings t tr)) None (soundRef w)
      (timerIntervalRef w) None None (intervals w) (S (nextTimerId w))
      (pending w) (nextSound w) (subscribed w) (alerts w) (audioCalls w)
      (diagnostics w) (navigatedHome w).
Proof.
  intros HR Hs Htr Hm Hg.
  pose proof HR as (Hsub & Hti & Ht & Hown & Hng & Hgt & Hfresh).
  rewrite app_comm_cons, run_snoc.
  rewrite (run_leave_window trackId s now w t tr) by assumption.
  unfold step. cbn [subscribed]. rewrite Hsub.
  unfold handleAppStateChange, handleAppForeground, clearGraceTimer,
    clearInterval.
  cbn -[Z.sub Z.of_nat]. rewrite filter_app, filter_fresh by exact Hfresh.
  cbn -[Z.sub Z.of_nat]. rewrite Nat.eqb_refl.
  cbn -[Z.sub Z.of_nat]. rewrite app_nil_r. reflexivity.
Qed.

(** A state that differs from a running one only in the counters, the
    background time and a larger next handle is running too. *)
Lemma Running_after_return (t : TimerId) (w : World) (tr : Z) (n : nat) :
  Running t w ->
  (nextTimerId w <= n)%nat ->
  Running t
    (mkWorld tr None (soundRef w) (timerIntervalRef w) None None (intervals w)
       n (pending w) (nextSound w) (subscribed w) (alerts w) (audioCalls w)
       (diagnostics w) (navigatedHome w)).
Proof.
  intros (Hsub & Hti & Ht & Hown & Hng & Hgt & Hfresh) Hn.
  unfold Running, mainOwned, noGraceArmed, freshHandles in *. cbn.
  repeat split; try assumption.
  eapply Forall_impl; [|exact Hfresh]. cbn. intros p Hp. lia.
Qed.

(** [stopSession] leaves nothing armed when every armed interval is held
    in one of the two refs. *)
Lemma stopSession_leaves_nothing (success : bool) (w : World) :
  (forall x : TimerId,
     lookupInterval x (intervals w) <> None ->
     timerIntervalRef w = Some x \/ graceTimerRef w = Some x) ->
  forall x : TimerId,
    lookupInterval x (intervals (stopSession success w)) = None.
Proof.
  intros H x.
  destruct (lookupInterval x (intervals (stopSession success w)))
    as [cb|] eqn:E; [|reflexivity].
  pose proof E as E'.
  apply lookupInterval_stopSession_Some in E. destruct E as [E Hne].
  destruct (H x) as [Hx|Hx]; [rewrite E; discriminate|contradiction|].
  rewrite (stopSession_disarms_grace success w x Hx) in E'. discriminate E'.
Qed.

Lemma run_firings_nothing_armed trackId isPremium (tr : list Event)
    (w : World) :
  (forall x : TimerId, lookupInterval x (intervals w) = None) ->
  onlyFirings tr ->
  run trackId isPremium tr w = w.
Proof.
  intros H Htr. induction Htr as [|e tr [x ->] _ IH]; [reflexivity|].
  rewrite run_cons, step_Tick_disarmed by apply H. exact IH.
Qed.

Lemma Running_mount (duration : Z) : Running 1%nat (mount duration).
Proof.
  unfold Running.
  split; [reflexivity|]. split; [reflexivity|]. split; [reflexivity|].
  split; [apply mainOwned_mount|].
  split; [exact (proj1 (neverFailing_mount duration))|].
  split; [reflexivity|apply freshHandles_mount].
Qed.

(** C2, as amended.  Take a free-tier session that is running, with no
    grace interval armed, and send it out of the foreground by one
    app-state change ('background' or 'inactive').  Let [tr] be the
    firings that follow, of whatever handles and in whatever order, up to
    but not including the event that decides, so that within [tr] the
    countdown has not run out.  Exactly one of three events decides.
    - The foreground-enter, after fewer than 10 firings of the grace
      interval: the session is running again.  No dialog was raised, the
      grace interval is disarmed and the grace state cleared, no audio
      call was made, and [timeRemaining] went down by exactly the number
      of firings of the countdown interval.
    - The 10th firing of the grace interval: the session is stopped as
      failed.  Nothing is left armed, [timeRemaining] stays at the value
      it had, and once the audio teardown has settled the one dialog
      added is the failure dialog.
    - The firing of the countdown interval that finds one second or less
      left, before the 10th firing of the grace interval: the session is
      stopped as completed instead.  Nothing is left armed, the grace
      interval included, the one dialog added is the completion dialog,
      and no later firing changes anything, so no failure follows.
    A second 'background' or 'inactive' before the return, and a grace
    interval armed before the session was sent away, are not covered. *)
Theorem grace_window_returns_fails_or_completes :
  forall (trackId : string) (w : World) (t : TimerId) (s : AppStateStatus)
         (now now' : Z) (tr : list Event),
    Running t w ->
    s = background \/ s = inactive ->
    onlyFirings tr ->
    (firings t tr = O \/ Z.of_nat (firings t tr) < timeRemaining w) ->
    let g := nextTimerId w in
    let p := List.length (pending w) in
    let settled := [Settle p Fulfilled; Settle p Fulfilled] in
    (Z.of_nat (firings g tr) < GRACE_PERIOD_SECONDS ->
     let w' := run trackId false
                 (AppStateChange s now :: tr ++ [AppStateChange active now'])
                 w in
     Running t w'
     /\ timeRemaining w' = timeRemaining w - Z.of_nat (firings t tr)
     /\ alerts w' = alerts w
     /\ graceTimeRemaining w' = None
     /\ intervals w' = intervals w
     /\ soundRef w' = soundRef w
     /\ pending w' = pending w
     /\ audioCalls w' = audioCalls w)
    /\
    (Z.of_nat (firings g tr) = GRACE_PERIOD_SECONDS - 1 ->
     let w' := run trackId false (AppStateChange s now :: tr ++ [Tick g]) w in
     timeRemaining w' = timeRemaining w - Z.of_nat (firings t tr)
     /\ timerIntervalRef w' = None
     /\ graceTimerRef w' = None
     /\ (forall x : TimerId, lookupInterval x (intervals w') = None)
     /\ alerts (run trackId false settled w') = alerts w ++ [SessionFailedAlert])
    /\
    (Z.of_nat (firings g tr) < GRACE_PERIOD_SECONDS ->
     timeRemaining w - Z.of_nat (firings t tr) <= 1 ->
     let w' := run trackId false (AppStateChange s now :: tr ++ [Tick t]) w in
     timeRemaining w' = 0
     /\ timerIntervalRef w' = None
     /\ graceTimerRef w' = None
     /\ (forall x : TimerId, lookupInterval x (intervals w') = None)
     /\ alerts (run trackId false settled w')
        = alerts w ++ [SessionCompleteAlert]
     /\ (forall later : list Event,
           onlyFirings later -> run trackId false later w' = w')).
Proof.
  intros trackId w t s now now' tr HR Hs Htr Hm g p settled.
  pose proof HR as (Hsub & Hti & Ht & Hown & Hng & Hgt & Hfresh).
  assert (Hlt : lookupInterval t (intervals w ++ [(g, GraceTick)])
                = Some MainTick).
  { rewrite lookupInterval_app, Ht. reflexivity. }
  assert (Hlg : lookupInterval g (intervals w ++ [(g, GraceTick)])
                = Some GraceTick).
  { rewrite lookupInterval_app. unfold g.
    rewrite lookupInterval_fresh by exact Hfresh.
    cbn. rewrite Nat.eqb_refl. reflexivity. }
  split; [|split].
  - intros Hg w'. subst w'.
    rewrite (run_leave_return trackId s now now' w t tr) by assumption.
    split; [apply Running_after_return; [exact HR|lia]|].
    repeat split; reflexivity.
  - intros Hg w'. subst w'.
    rewrite app_comm_cons, run_snoc.
    rewrite (run_leave_window trackId s now w t tr)
      by (try assumption; fold g; lia).
    fold g. rewrite Hg.
    match goal with |- context [step _ _ (Tick g) ?x] => set (wX := x) end.
    rewrite step_Tick_grace by exact Hlg.
    rewrite (graceTick_last wX (GRACE_PERIOD_SECONDS - (GRACE_PERIOD_SECONDS - 1)))
      by (try reflexivity; unfold GRACE_PERIOD_SECONDS; lia).
    unfold handleGracePeriodExpired.
    set (wY := clearGraceTimer wX).
    assert (HtiY : timerIntervalRef wY = Some t) by exact Hti.
    assert (HpY : pending wY = pending w) by reflexivity.
    assert (HaY : alerts wY = alerts w) by reflexivity.
    assert (HtrY : timeRemaining wY = timeRemaining w - Z.of_nat (firings t tr))
      by reflexivity.
    assert (HarmedY : forall x : TimerId,
              lookupInterval x (intervals wY) <> None ->
              timerIntervalRef wY = Some x \/ graceTimerRef wY = Some x).
    { intros x Hx. left. rewrite HtiY. f_equal.
      destruct (Nat.eq_dec x t) as [E|Hxt]; [symmetry; exact E|].
      exfalso. apply Hx. subst wY wX. unfold clearGraceTimer. cbn.
      rewrite lookupInterval_filter.
      destruct (Nat.eqb x g) eqn:Exg; [reflexivity|].
      apply Nat.eqb_neq in Exg.
      apply (Running_only_two_armed t w x HR Hxt Exg). }
    clearbody wY.
    cbn [timeRemaining timerIntervalRef graceTimerRef intervals
         set_graceTimeRemaining].
    rewrite timeRemaining_stopSession.
    destruct (stopSession_refs false wY) as [H1 H2].
    repeat split; try assumption.
    + apply stopSession_leaves_nothing, HarmedY.
    + subst settled. rewrite !run_cons. unfold run, fold_left.
      rewrite !step_Settle_set_graceTimeRemaining.
      cbn [alerts set_graceTimeRemaining].
      subst p. rewrite <- HpY, <- HaY.
      exact (proj1 (stopSession_settled trackId false false wY)).
  - intros Hg Hlast w'. subst w'.
    rewrite app_comm_cons, run_snoc.
    rewrite (run_leave_window trackId s now w t tr) by assumption.
    fold g.
    match goal with |- context [step _ _ (Tick t) ?x] => set (wX := x) end.
    rewrite step_Tick_main by exact Hlt.
    rewrite mainTick_last by exact Hlast.
    assert (HpX : pending wX = pending w) by reflexivity.
    assert (HaX : alerts wX = alerts w) by reflexivity.
    assert (HarmedX : forall x : TimerId,
              lookupInterval x (intervals wX) <> None ->
              timerIntervalRef wX = Some x \/ graceTimerRef wX = Some x).
    { intros x Hx.
      destruct (Nat.eq_dec x t) as [E|Hxt]; [left; subst x; exact Hti|].
      destruct (Nat.eq_dec x g) as [E|Hxg]; [right; subst x; reflexivity|].
      exfalso. apply Hx. apply (Running_only_two_armed t w x HR Hxt Hxg). }
    clearbody wX.
    destruct (stopSession_refs true wX) as [H1 H2].
    assert (Hnone : forall x : TimerId,
              lookupInterval x
                (intervals (set_timeRemaining 0 (stopSession true wX)))
              = None).
    { intros x. cbn [intervals set_timeRemaining].
      apply stopSession_leaves_nothing, HarmedX. }
    split; [reflexivity|]. split; [exact H1|]. split; [exact H2|].
    split; [exact Hnone|]. split.
    + subst settled. rewrite !run_cons. unfold run, fold_left.
      rewrite !step_Settle_set_timeRemaining.
      cbn [alerts set_timeRemaining].
      subst p. rewrite <- HpX, <- HaX.
      exact (proj1 (stopSession_settled trackId false true wX)).
    + intros later Hlater.
      apply run_firings_nothing_armed; [exact Hnone|exact Hlater].
Qed.

Ltac only_firings :=
  unfold onlyFirings;
  repeat (apply Forall_cons; [eexists; reflexivity|]);
  apply Forall_nil.

(** A one-minute session: left for three seconds (with a firing of a
    handle that is not armed thrown in); left for good; and left with
    five seconds on the clock. *)
Lemma grace_window_returns_fails_or_completes_witness :
  let w := mount 1 in
  let w5 := run "focus1" false (ticks 1%nat 55) (mount 1) in
  let three := [Tick 1%nat; Tick 2%nat; Tick 1%nat; Tick 7%nat; Tick 2%nat;
                Tick 1%nat; Tick 2%nat] in
  let nine := List.concat (repeat [Tick 1%nat; Tick 2%nat] 9) in
  let four := List.concat (repeat [Tick 1%nat; Tick 2%nat] 4) in
  let settled := [Settle 1%nat Fulfilled; Settle 1%nat Fulfilled] in
  (Running 1%nat w /\ Running 1%nat w5
   /\ onlyFirings three /\ onlyFirings nine /\ onlyFirings four
   /\ Z.of_nat (firings 1%nat three) < timeRemaining w
   /\ Z.of_nat (firings 1%nat nine) < timeRemaining w
   /\ Z.of_nat (firings 1%nat four) < timeRemaining w5
   /\ Z.of_nat (firings (nextTimerId w) three) < GRACE_PERIOD_SECONDS
   /\ Z.of_nat (firings (nextTimerId w) nine) = GRACE_PERIOD_SECONDS - 1
   /\ Z.of_nat (firings (nextTimerId w5) four) < GRACE_PERIOD_SECONDS
   /\ timeRemaining w5 - Z.of_nat (firings 1%nat four) <= 1)
  /\ timeRemaining
       (run "focus1" false
          (AppStateChange background 5 :: three ++ [AppStateChange active 8])
          w) = 60 - 3
  /\ alerts
       (run "focus1" false settled
          (run "focus1" false
             (AppStateChange inactive 5 :: nine ++ [Tick 2%nat]) w))
     = [SessionFailedAlert]
  /\ alerts
       (run "focus1" false settled
          (run "focus1" false
             (AppStateChange background 55 :: four ++ [Tick 1%nat]) w5))
     = [SessionCompleteAlert].
Proof.
  intros w w5 three nine four settled.
  assert (E : w5 = set_timeRemaining 5 (mount 1))
    by (vm_compute; reflexivity).
  clearbody w5. subst w5.
  assert (HR : Running 1%nat w) by apply Running_mount.
  assert (HR5 : Running 1%nat (set_timeRemaining 5 (mount 1)))
    by exact (Running_mount 1).
  assert (H3 : onlyFirings three) by (subst three; only_firings).
  assert (H9 : onlyFirings nine) by (subst nine; cbn; only_firings).
  assert (H4 : onlyFirings four) by (subst four; cbn; only_firings).
  split.
  { split; [exact HR|]. split; [exact HR5|]. split; [exact H3|].
    split; [exact H9|]. split; [exact H4|].
    repeat split; reflexivity. }
  destruct (grace_window_returns_fails_or_completes "focus1" w 1%nat
              background 5 8 three HR (or_introl eq_refl) H3
              (or_intror eq_refl)) as (P1 & _ & _).
  destruct (grace_window_returns_fails_or_completes "focus1" w 1%nat
              inactive 5 8 nine HR (or_intror eq_refl) H9
              (or_intror eq_refl)) as (_ & P2 & _).
  destruct (grace_window_returns_fails_or_completes "focus1"
              (set_timeRemaining 5 (mount 1)) 1%nat
              background 55 8 four HR5 (or_introl eq_refl) H4
              (or_intror eq_refl)) as (_ & _ & P3).
  split; [exact (proj1 (proj2 (P1 eq_refl)))|].
  split; [exact (proj2 (proj2 (proj2 (proj2 (P2 eq_refl)))))|].
  assert (L : timeRemaining (set_timeRemaining 5 (mount 1))
              - Z.of_nat (firings 1%nat four) <= 1)
    by (vm_compute; discriminate).
  exact (proj1 (proj2 (proj2 (proj2 (proj2 (P3 eq_refl L)))))).
Defined.

(** ** Leaving and coming back, again and again *)

Lemma run_absence trackId (a : Absence) (w : World) (t : TimerId) :
  Running t w ->
  leftAs a = background \/ leftAs a = inactive ->
  onlyFirings (firedAway a) ->
  (firings t (firedAway a) = O
   \/ Z.of_nat (firings t (firedAway a)) < timeRemaining w) ->
  Z.of_nat (firings (nextTimerId w) (firedAway a)) < GRACE_PERIOD_SECONDS ->
  run trackId false (absence a) w
  = mkWorld (timeRemaining w - Z.of_nat (firings t (firedAway a))) None
      (soundRef w) (timerIntervalRef w) None None (intervals w)
      (S (nextTimerId w)) (pending w) (nextSound w) (subscribed w) (alerts w)
      (audioCalls w) (diagnostics w) (navigatedHome w).
Proof. intros. unfold absence. apply run_leave_return; assumption. Qed.

Lemma run_absences trackId (t : TimerId) (l : list Absence) :
  forall w : World,
    Running t w ->
    shortAbsences (nextTimerId w) l ->
    (mainFirings t l = O \/ Z.of_nat (mainFirings t l) < timeRemaining w) ->
    let w' := run trackId false (absences l) w in
    Running t w'
    /\ timeRemaining w' = timeRemaining w - Z.of_nat (mainFirings t l)
    /\ alerts w' = alerts w
    /\ audioCalls w' = audioCalls w
    /\ intervals w' = intervals w
    /\ nextTimerId w' = (nextTimerId w + List.length l)%nat.
Proof.
  induction l as [|a l IH]; intros w HR Hshort Hm w'.
  - subst w'. cbn. rewrite Z.sub_0_r, Nat.add_0_r.
    split; [exact HR|]. repeat split.
  - subst w'. destruct Hshort as (Hs & Htr & Hg & Hrest).
    cbn [mainFirings] in Hm |- *.
    unfold absences. cbn [map List.concat]. rewrite run_app.
    rewrite (run_absence trackId a w t HR Hs Htr)
      by (first [exact Hg|destruct Hm as [Hm|Hm]; [left|right]; lia]).
    match goal with
    | |- context [run trackId false (List.concat (map absence l)) ?x] =>
        set (w1 := x)
    end.
    assert (HR1 : Running t w1)
      by (apply Running_after_return; [exact HR|lia]).
    specialize (IH w1 HR1 Hrest).
    cbv zeta in IH. fold (absences l) in *.
    destruct IH as (E0 & E1 & E2 & E3 & E4 & E5).
    { subst w1. cbn [timeRemaining].
      destruct Hm as [Hm|Hm]; [left|right]; lia. }
    rewrite E1, E2, E3, E4, E5.
    subst w1. cbn [timeRemaining alerts audioCalls intervals nextTimerId].
    rewrite Nat2Z.inj_add. cbn [List.length].
    split; [exact E0|]. repeat split; lia.
Qed.

(** X7.  The grace period starts afresh on every absence of the simple
    kind.  Let a running free-tier session with no grace interval armed
    be left and returned to any number of times, each absence announced
    by exactly one 'background' or 'inactive' change and ended by
    'active', with nothing but firings (of whatever handles) in
    between.  As long as each absence sees fewer than ten firings of the
    grace interval armed for it and the countdown does not run out, the
    session is running again after the last return, however long the
    absences are in total: no dialog was raised, no grace interval is
    armed, no audio call was made, and [timeRemaining] went down by
    exactly the number of firings of the countdown interval.  Absences
    announced by two changes in a row, such as 'inactive' followed by
    'background', are not covered. *)
Theorem short_absences_never_fail :
  forall (trackId : string) (t : TimerId) (l : list Absence) (w : World),
    Running t w ->
    shortAbsences (nextTimerId w) l ->
    (mainFirings t l = O \/ Z.of_nat (mainFirings t l) < timeRemaining w) ->
    let w' := run trackId false (absences l) w in
    Running t w'
    /\ timeRemaining w' = timeRemaining w - Z.of_nat (mainFirings t l)
    /\ alerts w' = alerts w
    /\ audioCalls w' = audioCalls w.
Proof.
  intros trackId t l w HR Hshort Hm w'.
  destruct (run_absences trackId t l w HR Hshort Hm)
    as (E0 & E1 & E2 & E3 & _).
  fold w' in E0, E1, E2, E3.
  split; [exact E0|]. repeat split; assumption.
Qed.

(** Two absences of nine seconds each, the first announced by
    'inactive' and the second by 'background': eighteen seconds away in
    all. *)
Lemma short_absences_never_fail_witness :
  let away g := List.concat (repeat [Tick 1%nat; Tick g] 9) in
  let l := [mkAbsence inactive 0 (away 2%nat);
            mkAbsence background 20 (away 3%nat)] in
  let w := mount 1 in
  (Running 1%nat w
   /\ shortAbsences (nextTimerId w) l
   /\ Z.of_nat (mainFirings 1%nat l) < timeRemaining w)
  /\ timeRemaining (run "focus1" false (absences l) w) = 60 - 18
  /\ alerts (run "focus1" false (absences l) w) = [].
Proof.
  intros away l w.
  assert (HR : Running 1%nat w) by apply Running_mount.
  assert (Hshort : shortAbsences (nextTimerId w) l).
  { subst l away w. cbn.
    split; [right; reflexivity|]. split; [only_firings|].
    split; [reflexivity|].
    split; [left; reflexivity|]. split; [only_firings|].
    split; [reflexivity|exact I]. }
  split.
  { split; [exact HR|]. split; [exact Hshort|reflexivity]. }
  destruct (short_absences_never_fail "focus1" 1%nat l w HR Hshort
              (or_intror eq_refl))
    as (_ & E1 & E2 & _).
  split; [exact E1|exact E2].
Defined.

(** ** A premium mark sticks *)

(** A fetch, for whatever user and however its promises settle, leaves
    every document that exists as it is. *)
Lemma fetchUserData_keeps_documents (uid u : string) (rGet rSet : Settled)
    (a : Auth) (d : UserData) :
  getDoc uid (users a) = Some d ->
  getDoc uid (users (fetchUserData u rGet rSet a)) = Some d.
Proof.
  intros H. unfold fetchUserData.
  destruct rGet; [|exact H].
  destruct (getDoc u (users a)) as [d'|] eqn:E; [exact H|].
  destruct rSet; [|exact H].
  cbn [users setUserData]. rewrite getDoc_setDoc.
  destruct (String.eqb u uid) eqn:Eu; [|exact H].
  apply String.eqb_eq in Eu. subst u. congruence.
Qed.

Lemma fetches_keep_documents (uid : string)
    (calls : list (string * Settled * Settled)) :
  forall (a : Auth) (d : UserData),
    getDoc uid (users a) = Some d ->
    getDoc uid (users (fetches calls a)) = Some d.
Proof.
  induction calls as [|c calls IH]; intros a d H; [exact H|].
  unfold fetches. cbn [fold_left]. apply IH.
  apply fetchUserData_keeps_documents, H.
Qed.

(** X14.  A premium mark sticks.  After [markUserPremium] succeeded for
    a user, no sequence of [fetchUserData] runs, for whatever users and
    however their promises settle, changes that user's document.  A
    fetch for the user after that writes nothing, and it reads premium
    exactly when its read of the document succeeds: a rejected read is
    logged once and reads free tier.  Marking touches nobody else's
    document. *)
Theorem premium_mark_sticks :
  forall (userId : string) (db : Users) (a : Auth)
         (calls : list (string * Settled * Settled)) (rGet rSet : Settled),
    match markUserPremium userId Fulfilled db with
    | inl db' =>
        let a1 := fetches calls
                    (mkAuth (user a) (userData a) (loading a) db'
                       (authErrors a)) in
        let a2 := fetchUserData userId rGet rSet a1 in
        getDoc userId (users a1) = Some (Some true)
        /\ users a2 = users a1
        /\ (isPremiumOf (userData a2) = true <-> rGet = Fulfilled)
        /\ authErrors a2
           = match rGet with
             | Fulfilled => authErrors a1
             | Rejected => S (authErrors a1)
             end
        /\ (forall other : string,
              other <> userId -> getDoc other db' = getDoc other db)
    | inr _ => False
    end.
Proof.
  intros userId db a calls rGet rSet. cbn [markUserPremium].
  set (a0 := mkAuth (user a) (userData a) (loading a)
               (setDoc userId (Some true) db) (authErrors a)).
  assert (H1 : getDoc userId (users (fetches calls a0)) = Some (Some true)).
  { apply fetches_keep_documents. subst a0. cbn [users].
    rewrite getDoc_setDoc, String.eqb_refl. reflexivity. }
  cbv zeta. set (a1 := fetches calls a0) in *. clearbody a1.
  split; [exact H1|].
  unfold fetchUserData. rewrite H1.
  destruct rGet; cbn.
  - repeat split.
    intros other Hne. destruct (String.eqb userId other) eqn:E; [|reflexivity].
    apply String.eqb_eq in E. congruence.
  - repeat split; try discriminate.
    intros other Hne. destruct (String.eqb userId other) eqn:E; [|reflexivity].
    apply String.eqb_eq in E. congruence.
Qed.
